(** * Crux-Sit: the FPGA register map accessor (game/include/fpga/fpga.c)

    A shallow embedding of [fpgainit], [fpgaclose], [readkeys],
    [numbertodigit] and [setdigit], and the properties of the accessor's
    specification proved (or refuted) on it.

    Conventions.
    - A C [int] is a [Z] in the range of a 32-bit two's complement integer
      (the target is the ARM core of the board, ILP32).  [~] is [Z.lnot],
      [&] is [Z.land], and [>>] is [Z.shiftr] (gcc shifts signed values
      arithmetically) when the shift count is below the width of [int];
      a count of 32 or more has no defined behaviour in C.
    - A pointer is the [Z] of its address; [void *] arithmetic counts bytes.
    - The operating system and the peripheral are an explicit [world] that
      every operation threads through: the descriptor table, the live
      mappings, the kernel's answers to [open], [mmap] and [munmap], what
      the peripheral presents on its input registers at each successive
      load, what was last stored in its output registers, and the trace of
      everything the program did.
    - An operation either completes with a value and a new world, or has
      no defined behaviour ([Undefined]). *)

From Stdlib Require Import ZArith List String Ascii Bool Lia Arith FinFun.
Import ListNotations.

Local Open Scope Z_scope.

(* ===================================================================== *)
(** ** Machine integers *)

Module Int.

Definition width : Z := 32.
Definition min_signed : Z := - 2 ^ 31.
Definition max_signed : Z := 2 ^ 31 - 1.

Definition in_range (x : Z) : Prop := min_signed <= x <= max_signed.

(** Reduction of an arbitrary integer to the [int] it is stored as. *)
Definition wrap (x : Z) : Z := (x + 2 ^ 31) mod 2 ^ 32 - 2 ^ 31.

(** [~x] *)
Definition not (x : Z) : Z := Z.lnot x.

(** [x & y] *)
Definition and (x y : Z) : Z := Z.land x y.

(** [x >> i], with [i] a [size_t]: undefined once [i] reaches the width. *)
Definition shr (x : Z) (i : nat) : option Z :=
  if Z.of_nat i <? width then Some (Z.shiftr x (Z.of_nat i)) else None.

(** A binary literal, as the source writes its constants ([0b0111111]). *)
Fixpoint bits (s : string) (acc : Z) : Z :=
  match s with
  | EmptyString => acc
  | String c rest =>
      bits rest (2 * acc + (if Ascii.eqb c "1"%char then 1 else 0))
  end.

Definition bin (s : string) : Z := bits s 0.

End Int.

(* ===================================================================== *)
(** ** fpga.h *)

(** Modelled from the spec: the header fpga.h is not among the sources.
    Its status codes are taken from the documentation of [fpgainit] and
    [fpgaclose] in fpga.c ("Returns 0 (SUCCESS) ... If an error occurs, it
    returns -1"). *)
Definition SUCCESS : Z := 0.
Definition ERROR : Z := -1.

(** The address constants of fpga.h, whose values the sources do not give:
    the physical window of the lightweight bridge and the byte offset of
    each register inside it.  Everything below is parametric in them. *)
Record header := mkHeader {
  LW_BRIDGE_BASE : Z;
  LW_BRIDGE_SPAN : Z;
  KEY_BASE : Z;
  HEX5_BASE : Z;
  HEX4_BASE : Z;
  HEX3_BASE : Z;
  HEX2_BASE : Z;
  HEX1_BASE : Z;
  HEX0_BASE : Z
}.

(** [fpga_map_arm_t], with the fields fpga.c uses. *)
Record fpga_map_arm_t := mkMap {
  fd : Z;
  mapped_ptr : Z;
  KEY_ptr : Z;
  HEX5_ptr : Z;
  HEX4_ptr : Z;
  HEX3_ptr : Z;
  HEX2_ptr : Z;
  HEX1_ptr : Z;
  HEX0_ptr : Z
}.

Definition set_fd (m : fpga_map_arm_t) (v : Z) : fpga_map_arm_t :=
  mkMap v (mapped_ptr m) (KEY_ptr m) (HEX5_ptr m) (HEX4_ptr m) (HEX3_ptr m)
        (HEX2_ptr m) (HEX1_ptr m) (HEX0_ptr m).

Definition set_mapped_ptr (m : fpga_map_arm_t) (v : Z) : fpga_map_arm_t :=
  mkMap (fd m) v (KEY_ptr m) (HEX5_ptr m) (HEX4_ptr m) (HEX3_ptr m)
        (HEX2_ptr m) (HEX1_ptr m) (HEX0_ptr m).

Definition set_KEY_ptr (m : fpga_map_arm_t) (v : Z) : fpga_map_arm_t :=
  mkMap (fd m) (mapped_ptr m) v (HEX5_ptr m) (HEX4_ptr m) (HEX3_ptr m)
        (HEX2_ptr m) (HEX1_ptr m) (HEX0_ptr m).

Definition set_HEX5_ptr (m : fpga_map_arm_t) (v : Z) : fpga_map_arm_t :=
  mkMap (fd m) (mapped_ptr m) (KEY_ptr m) v (HEX4_ptr m) (HEX3_ptr m)
        (HEX2_ptr m) (HEX1_ptr m) (HEX0_ptr m).

Definition set_HEX4_ptr (m : fpga_map_arm_t) (v : Z) : fpga_map_arm_t :=
  mkMap (fd m) (mapped_ptr m) (KEY_ptr m) (HEX5_ptr m) v (HEX3_ptr m)
        (HEX2_ptr m) (HEX1_ptr m) (HEX0_ptr m).

Definition set_HEX3_ptr (m : fpga_map_arm_t) (v : Z) : fpga_map_arm_t :=
  mkMap (fd m) (mapped_ptr m) (KEY_ptr m) (HEX5_ptr m) (HEX4_ptr m) v
        (HEX2_ptr m) (HEX1_ptr m) (HEX0_ptr m).

Definition set_HEX2_ptr (m : fpga_map_arm_t) (v : Z) : fpga_map_arm_t :=
  mkMap (fd m) (mapped_ptr m) (KEY_ptr m) (HEX5_ptr m) (HEX4_ptr m) (HEX3_ptr m)
        v (HEX1_ptr m) (HEX0_ptr m).

Definition set_HEX1_ptr (m : fpga_map_arm_t) (v : Z) : fpga_map_arm_t :=
  mkMap (fd m) (mapped_ptr m) (KEY_ptr m) (HEX5_ptr m) (HEX4_ptr m) (HEX3_ptr m)
        (HEX2_ptr m) v (HEX0_ptr m).

Definition set_HEX0_ptr (m : fpga_map_arm_t) (v : Z) : fpga_map_arm_t :=
  mkMap (fd m) (mapped_ptr m) (KEY_ptr m) (HEX5_ptr m) (HEX4_ptr m) (HEX3_ptr m)
        (HEX2_ptr m) (HEX1_ptr m) v.

(* ===================================================================== *)
(** ** The world outside the program *)

(** What the program does to the world, in the order it does it. *)
Inductive event :=
| EvOpen (path : string) (ret : Z)
| EvMmap (len : Z) (descr : Z) (off : Z) (ret : Z)
| EvMunmap (addr : Z) (len : Z) (ret : Z)
| EvClose (descr : Z)
| EvPrintf (msg : string)
| EvLoad (addr : Z) (val : Z)
| EvStore (addr : Z) (val : Z).

Record world := mkWorld {
  (** descriptors open in the process *)
  open_fds : list Z;
  (** bases of the live mappings of the bridge window *)
  mappings : list Z;
  (** whether the kernel lets the process open /dev/mem *)
  dev_mem_opens : bool;
  (** the page at which the kernel places the next mapping, if it maps *)
  mmap_page : option N;
  (** whether the kernel accepts the next unmapping *)
  munmap_accepts : bool;
  (** what the peripheral presents at an address, at the n-th load *)
  port : nat -> Z -> Z;
  (** number of loads made so far *)
  clock : nat;
  (** what was last stored at an address of the window *)
  latch : Z -> Z;
  (** everything done so far, oldest first *)
  trace : list event
}.

Definition log (e : event) (w : world) : world :=
  mkWorld (open_fds w) (mappings w) (dev_mem_opens w) (mmap_page w)
          (munmap_accepts w) (port w) (clock w) (latch w) (trace w ++ [e]).

Definition with_fds (l : list Z) (w : world) : world :=
  mkWorld l (mappings w) (dev_mem_opens w) (mmap_page w)
          (munmap_accepts w) (port w) (clock w) (latch w) (trace w).

Definition with_mappings (l : list Z) (w : world) : world :=
  mkWorld (open_fds w) l (dev_mem_opens w) (mmap_page w)
          (munmap_accepts w) (port w) (clock w) (latch w) (trace w).

Definition tick (w : world) : world :=
  mkWorld (open_fds w) (mappings w) (dev_mem_opens w) (mmap_page w)
          (munmap_accepts w) (port w) (S (clock w)) (latch w) (trace w).

Definition with_latch (a v : Z) (w : world) : world :=
  mkWorld (open_fds w) (mappings w) (dev_mem_opens w) (mmap_page w)
          (munmap_accepts w) (port w) (clock w)
          (fun a' => if a' =? a then v else latch w a') (trace w).

(** *** Observations of a trace *)

(** The values obtained by the loads made at [a], oldest first. *)
Fixpoint loads_at (a : Z) (t : list event) : list Z :=
  match t with
  | [] => []
  | EvLoad a' v :: t' =>
      if a' =? a then v :: loads_at a t' else loads_at a t'
  | _ :: t' => loads_at a t'
  end.

(** The stores made, as address and value, oldest first. *)
Fixpoint stores (t : list event) : list (Z * Z) :=
  match t with
  | [] => []
  | EvStore a v :: t' => (a, v) :: stores t'
  | _ :: t' => stores t'
  end.

(** The descriptors handed to [close], oldest first. *)
Fixpoint closes (t : list event) : list Z :=
  match t with
  | [] => []
  | EvClose d :: t' => d :: closes t'
  | _ :: t' => closes t'
  end.

(* ===================================================================== *)
(** ** Computations *)

Inductive outcome (A : Type) :=
| Ok (a : A) (w : world)
| Undefined.

Arguments Ok {A} a w.
Arguments Undefined {A}.

Definition M (A : Type) : Type := world -> outcome A.

Definition ret {A} (a : A) : M A := fun w => Ok a w.

Definition bind {A B} (c : M A) (k : A -> M B) : M B :=
  fun w => match c w with
           | Ok a w' => k a w'
           | Undefined => Undefined
           end.

(** A step of the abstract machine that is defined only sometimes. *)
Definition defined {A} (o : option A) : M A :=
  fun w => match o with
           | Some a => Ok a w
           | None => Undefined
           end.

Declare Scope fpga_scope.
Delimit Scope fpga_scope with fpga.

Notation "x <- c ;; k" := (bind c (fun x => k))
  (at level 100, c at next level, right associativity) : fpga_scope.
Notation "c ;;; k" := (bind c (fun _ => k))
  (at level 100, right associativity) : fpga_scope.

Local Open Scope fpga_scope.

(* ===================================================================== *)
(** ** System calls and bus accesses *)

(** Constants of the system headers (Linux, ARM): [O_RDWR | O_SYNC],
    [MAP_FAILED] (the pointer of value -1) and the page size. *)
Definition O_RDWR_O_SYNC : Z := Z.lor 2 1052672.
Definition MAP_FAILED : Z := -1.
Definition PAGE_SIZE : Z := 4096.

(** The lowest descriptor number not in [l], searched upwards from [n]. *)
Fixpoint lowest_free_from (fuel : nat) (n : Z) (l : list Z) : Z :=
  match fuel with
  | O => n
  | S fuel' =>
      if existsb (Z.eqb n) l then lowest_free_from fuel' (n + 1) l else n
  end.

Definition lowest_free (l : list Z) : Z :=
  lowest_free_from (List.length l) 0 l.

(** [open(path, flags)]: the lowest free descriptor, or -1. *)
Definition sys_open (path : string) (flags : Z) : M Z :=
  fun w =>
    if dev_mem_opens w then
      let d := lowest_free (open_fds w) in
      Ok d (log (EvOpen path d) (with_fds (d :: open_fds w) w))
    else
      Ok (-1) (log (EvOpen path (-1)) w).

(** [mmap(NULL, len, prot, MAP_SHARED, descr, off)]: the address of the
    new mapping, or [MAP_FAILED]. *)
Definition sys_mmap (len : Z) (descr : Z) (off : Z) : M Z :=
  fun w =>
    match mmap_page w with
    | Some p =>
        let a := Z.of_N p * PAGE_SIZE in
        Ok a (log (EvMmap len descr off a) (with_mappings (a :: mappings w) w))
    | None =>
        Ok MAP_FAILED (log (EvMmap len descr off MAP_FAILED) w)
    end.

(** [munmap(addr, len)]: 0, or -1. *)
Definition sys_munmap (addr : Z) (len : Z) : M Z :=
  fun w =>
    if munmap_accepts w then
      Ok 0 (log (EvMunmap addr len 0)
                (with_mappings (remove Z.eq_dec addr (mappings w)) w))
    else
      Ok (-1) (log (EvMunmap addr len (-1)) w).

(** [close(descr)]; the program ignores what it returns. *)
Definition sys_close (descr : Z) : M unit :=
  fun w =>
    Ok tt (log (EvClose descr)
               (with_fds (remove Z.eq_dec descr (open_fds w)) w)).

(** [printf(msg)] *)
Definition printf (msg : string) : M unit :=
  fun w => Ok tt (log (EvPrintf msg) w).

(** [*p] as an rvalue, [p] an [int *] into the window: one bus read. *)
Definition load (p : Z) : M Z :=
  fun w =>
    let v := Int.wrap (port w (clock w) p) in
    Ok v (log (EvLoad p v) (tick w)).

(** [*p = v], [p] an [int *] into the window: one bus write. *)
Definition store (p : Z) (v : Z) : M unit :=
  fun w => Ok tt (log (EvStore p v) (with_latch p v w)).

(** [a[i] = v] on the caller's array [a]: undefined past its end. *)
Fixpoint array_set (a : list Z) (i : nat) (v : Z) : option (list Z) :=
  match a, i with
  | [], _ => None
  | _ :: a', O => Some (v :: a')
  | x :: a', S i' =>
      match array_set a' i' v with
      | Some r => Some (x :: r)
      | None => None
      end
  end.

(* ===================================================================== *)
(** ** fpga.c *)

Section Accessor.

Variable hdr : header.

(** [int fpgainit(fpga_map_arm_t *fpga_map)]: the status returned and the
    structure as the call leaves it. *)
Definition fpgainit (fpga_map : fpga_map_arm_t) : M (Z * fpga_map_arm_t) :=
  d <- sys_open "/dev/mem" O_RDWR_O_SYNC ;;
  let fpga_map := set_fd fpga_map d in
  if fd fpga_map =? -1 then
    printf "Couldn't open /dev/mem" ;;;
    ret (-1, fpga_map)
  else
    p <- sys_mmap (LW_BRIDGE_SPAN hdr) (fd fpga_map) (LW_BRIDGE_BASE hdr) ;;
    let fpga_map := set_mapped_ptr fpga_map p in
    if mapped_ptr fpga_map =? MAP_FAILED then
      printf "Couldn't map /dev/mem" ;;;
      sys_close (fd fpga_map) ;;;
      ret (ERROR, fpga_map)
    else
      let fpga_map := set_KEY_ptr fpga_map (mapped_ptr fpga_map + KEY_BASE hdr) in
      let fpga_map := set_HEX5_ptr fpga_map (mapped_ptr fpga_map + HEX5_BASE hdr) in
      let fpga_map := set_HEX4_ptr fpga_map (mapped_ptr fpga_map + HEX4_BASE hdr) in
      let fpga_map := set_HEX3_ptr fpga_map (mapped_ptr fpga_map + HEX3_BASE hdr) in
      let fpga_map := set_HEX2_ptr fpga_map (mapped_ptr fpga_map + HEX2_BASE hdr) in
      let fpga_map := set_HEX1_ptr fpga_map (mapped_ptr fpga_map + HEX1_BASE hdr) in
      let fpga_map := set_HEX0_ptr fpga_map (mapped_ptr fpga_map + HEX0_BASE hdr) in
      ret (SUCCESS, fpga_map).

(** [int fpgaclose(fpga_map_arm_t *fpga_map)] *)
Definition fpgaclose (fpga_map : fpga_map_arm_t) : M (Z * fpga_map_arm_t) :=
  r <- sys_munmap (mapped_ptr fpga_map) (LW_BRIDGE_SPAN hdr) ;;
  if negb (r =? 0) then
    printf "Couldn't munmap /dev/mem" ;;;
    ret (ERROR, fpga_map)
  else
    if fd fpga_map >=? 0 then
      sys_close (fd fpga_map) ;;;
      let fpga_map := set_fd fpga_map (-1) in
      ret (SUCCESS, fpga_map)
    else
      ret (SUCCESS, fpga_map).

End Accessor.

(** The body of the loop of [readkeys], [steps] iterations from index [i]:
    [pressed_keys[i] = (~*fpga_map.KEY_ptr >> i) & 1;] *)
Fixpoint readkeys_loop (fpga_map : fpga_map_arm_t) (steps : nat) (i : nat)
    (pressed_keys : list Z) : M (list Z) :=
  match steps with
  | O => ret pressed_keys
  | S steps' =>
      x <- load (KEY_ptr fpga_map) ;;
      s <- defined (Int.shr (Int.not x) i) ;;
      pressed_keys' <- defined (array_set pressed_keys i (Int.and s 1)) ;;
      readkeys_loop fpga_map steps' (S i) pressed_keys'
  end.

(** [void readkeys(fpga_map_arm_t fpga_map, int *pressed_keys, size_t size)]:
    the array as the call leaves it. *)
Definition readkeys (fpga_map : fpga_map_arm_t) (pressed_keys : list Z)
    (size : nat) : M (list Z) :=
  readkeys_loop fpga_map size 0 pressed_keys.

(** [int numbertodigit(int number)] *)
Definition numbertodigit (number : Z) : Z :=
  match number with
  | 0 => Int.bin "0111111"
  | 1 => Int.bin "0000110"
  | 2 => Int.bin "1011011"
  | 3 => Int.bin "1001111"
  | 4 => Int.bin "1100110"
  | 5 => Int.bin "1101101"
  | 6 => Int.bin "1111101"
  | 7 => Int.bin "0000111"
  | 8 => Int.bin "1111111"
  | 9 => Int.bin "1101111"
  | _ => 0
  end.

(** [void setdigit(fpga_map_arm_t fpga_map, int number, int hex)] *)
Definition setdigit (fpga_map : fpga_map_arm_t) (number hex : Z) : M unit :=
  match hex with
  | 0 => store (HEX0_ptr fpga_map) (Int.not (numbertodigit number))
  | 1 => store (HEX1_ptr fpga_map) (Int.not (numbertodigit number))
  | 2 => store (HEX2_ptr fpga_map) (Int.not (numbertodigit number))
  | 3 => store (HEX3_ptr fpga_map) (Int.not (numbertodigit number))
  | 4 => store (HEX4_ptr fpga_map) (Int.not (numbertodigit number))
  | 5 => store (HEX5_ptr fpga_map) (Int.not (numbertodigit number))
  | _ => ret tt
  end.

(* ===================================================================== *)
(** ** Reference definitions, in the words of the specification *)

(** The seven segments, bit 0 = segment A ... bit 6 = segment G. *)
Inductive segment := SegA | SegB | SegC | SegD | SegE | SegF | SegG.

Definition segment_bit (s : segment) : Z :=
  match s with
  | SegA => 0 | SegB => 1 | SegC => 2 | SegD => 3
  | SegE => 4 | SegF => 5 | SegG => 6
  end.

(** The segments lit for each decimal digit on a standard display. *)
Definition glyph (d : Z) : list segment :=
  match d with
  | 0 => [SegA; SegB; SegC; SegD; SegE; SegF]
  | 1 => [SegB; SegC]
  | 2 => [SegA; SegB; SegD; SegE; SegG]
  | 3 => [SegA; SegB; SegC; SegD; SegG]
  | 4 => [SegB; SegC; SegF; SegG]
  | 5 => [SegA; SegC; SegD; SegF; SegG]
  | 6 => [SegA; SegC; SegD; SegE; SegF; SegG]
  | 7 => [SegA; SegB; SegC]
  | 8 => [SegA; SegB; SegC; SegD; SegE; SegF; SegG]
  | 9 => [SegA; SegB; SegC; SegD; SegF; SegG]
  | _ => []
  end.

(** The active-high pattern that lights a set of segments. *)
Definition seven_segment (l : list segment) : Z :=
  fold_right (fun s acc => Z.lor (Z.shiftl 1 (segment_bit s)) acc) 0 l.

(** Bit [i] of [x], as the integer 0 or 1. *)
Definition bit_of (x : Z) (i : nat) : Z := Z.b2z (Z.testbit x (Z.of_nat i)).

(** The output of a read of the buttons for a given inverted register
    value: bit [i] at index [i], for each [i] below [size]. *)
Definition key_bits (inverted : Z) (size : nat) : list Z :=
  map (bit_of inverted) (seq 0 size).

(** readButtons as the specification words it: the register is read once,
    the value inverted, and bit [i] extracted for each index below [size]
    into the first [size] cells of the output. *)
Definition readkeys_once (fpga_map : fpga_map_arm_t) (pressed_keys : list Z)
    (size : nat) : M (list Z) :=
  x <- load (KEY_ptr fpga_map) ;;
  ret (key_bits (Int.not x) size ++ skipn size pressed_keys).

(** The display register that position [p] selects. *)
Definition HEX_ptr (fpga_map : fpga_map_arm_t) (p : Z) : Z :=
  nth (Z.to_nat p)
      [HEX0_ptr fpga_map; HEX1_ptr fpga_map; HEX2_ptr fpga_map;
       HEX3_ptr fpga_map; HEX4_ptr fpga_map; HEX5_ptr fpga_map] 0.


(** What the [j]-th load of the button register from world [w] on obtains. *)
Definition key_sample (fpga_map : fpga_map_arm_t) (w : world) (j : nat) : Z :=
  Int.wrap (port w (clock w + j)%nat (KEY_ptr fpga_map)).

(** The world after [k] successive loads at address [a]. *)
Fixpoint after_loads (a : Z) (k : nat) (w : world) : world :=
  match k with
  | O => w
  | S k' =>
      after_loads a k' (log (EvLoad a (Int.wrap (port w (clock w) a))) (tick w))
  end.

(** The descriptor [open] hands out in world [w]. *)
Definition new_fd (w : world) : Z := lowest_free (open_fds w).

(** The world once /dev/mem is open. *)
Definition opened (w : world) : world :=
  log (EvOpen "/dev/mem" (new_fd w)) (with_fds (new_fd w :: open_fds w) w).

(** The world once the window of [m], [span] bytes long, is unmapped. *)
Definition unmapped (span : Z) (m : fpga_map_arm_t) (w : world) : world :=
  log (EvMunmap (mapped_ptr m) span 0)
      (with_mappings (remove Z.eq_dec (mapped_ptr m) (mappings w)) w).

(* ===================================================================== *)
(** ** Concrete inputs *)

(** Stand-in values for the constants of fpga.h, used only to run the
    model on concrete inputs. *)
Definition example_header : header :=
  mkHeader 0xFF200000 0x5000 0x0 0x10 0x20 0x30 0x40 0x50 0x60.

(** A structure nobody has initialised yet. *)
Definition blank_map : fpga_map_arm_t := mkMap 0 0 0 0 0 0 0 0 0.

(** The structure a successful [fpgainit] leaves with a window at 0x1000
    of a layout with the stand-in offsets. *)
Definition example_map : fpga_map_arm_t :=
  mkMap 3 0x1000 0x1000 0x1010 0x1020 0x1030 0x1040 0x1050 0x1060.

(** A process with the three standard descriptors open, a kernel that
    grants everything, and buttons that present [keys i] at the i-th load. *)
Definition example_world (keys : nat -> Z) : world :=
  mkWorld [0; 1; 2] [] true (Some 1%N) true (fun t _ => keys t) O
          (fun _ => 0) [].

(** Button 0 held down, the others up. *)
Definition key0_held : nat -> Z := fun _ => 0xFE.

(** Button 0 released and button 1 pressed between two loads. *)
Definition key0_then_key1 : nat -> Z :=
  fun t => match t with O => 0xFE | _ => 0xFD end.

(* ===================================================================== *)
(** ** Facts about the machine integers *)

Lemma land_shiftr_one (x : Z) (i : nat) :
  Int.and (Z.shiftr x (Z.of_nat i)) 1 = bit_of x i.
Proof.
  unfold Int.and, bit_of.
  change 1 with (Z.ones 1).
  rewrite Z.land_ones by lia.
  rewrite Z.testbit_odd, <- Z.bit0_odd.
  symmetry. apply Z.bit0_mod.
Qed.

Lemma bit_of_bool (x : Z) (i : nat) : bit_of x i = 0 \/ bit_of x i = 1.
Proof.
  unfold bit_of. destruct (Z.testbit x (Z.of_nat i)); simpl; auto.
Qed.

Lemma shr_defined (x : Z) (i : nat) :
  (i < 32)%nat -> Int.shr x i = Some (Z.shiftr x (Z.of_nat i)).
Proof.
  intros Hi. unfold Int.shr, Int.width.
  destruct (Z.ltb_spec (Z.of_nat i) 32); [reflexivity | lia].
Qed.

Lemma shr_undefined (x : Z) (i : nat) :
  (32 <= i)%nat -> Int.shr x i = None.
Proof.
  intros Hi. unfold Int.shr, Int.width.
  destruct (Z.ltb_spec (Z.of_nat i) 32); [lia | reflexivity].
Qed.

Lemma wrap_in_range (x : Z) : Int.in_range (Int.wrap x).
Proof.
  unfold Int.in_range, Int.wrap, Int.min_signed, Int.max_signed.
  pose proof (Z.mod_pos_bound (x + 2 ^ 31) (2 ^ 32) ltac:(lia)). lia.
Qed.

Lemma not_in_range (x : Z) : Int.in_range x -> Int.in_range (Int.not x).
Proof.
  unfold Int.in_range, Int.not, Int.min_signed, Int.max_signed, Z.lnot.
  lia.
Qed.

(* ===================================================================== *)
(** ** Facts about arrays *)

Lemma array_set_defined (a : list Z) (i : nat) (v : Z) :
  (i < List.length a)%nat -> exists r, array_set a i v = Some r.
Proof.
  revert i. induction a as [|x a IH]; intros i Hi; simpl in *.
  - lia.
  - destruct i as [|i].
    + eauto.
    + destruct (IH i ltac:(lia)) as [r Hr]. rewrite Hr. eauto.
Qed.

Lemma array_set_bound (a : list Z) (i : nat) (v : Z) (r : list Z) :
  array_set a i v = Some r -> (i < List.length a)%nat.
Proof.
  revert i r. induction a as [|x a IH]; intros i r H; simpl in *.
  - discriminate.
  - destruct i as [|i]; [lia|].
    destruct (array_set a i v) eqn:E; [|discriminate].
    apply IH in E. lia.
Qed.

Lemma array_set_length (a : list Z) (i : nat) (v : Z) (r : list Z) :
  array_set a i v = Some r -> List.length r = List.length a.
Proof.
  revert i r. induction a as [|x a IH]; intros i r H; simpl in *.
  - discriminate.
  - destruct i as [|i].
    + inversion H; subst. reflexivity.
    + destruct (array_set a i v) eqn:E; [|discriminate].
      inversion H; subst. simpl. f_equal. eapply IH; eauto.
Qed.

Lemma array_set_nth (a : list Z) (i : nat) (v : Z) (r : list Z) (j : nat) :
  array_set a i v = Some r ->
  nth j r 0 = if Nat.eqb j i then v else nth j a 0.
Proof.
  revert i r j. induction a as [|x a IH]; intros i r j H; simpl in *.
  - discriminate.
  - destruct i as [|i].
    + inversion H; subst. destruct j; reflexivity.
    + destruct (array_set a i v) eqn:E; [|discriminate].
      inversion H; subst. destruct j as [|j]; simpl; [reflexivity|].
      eapply IH; eauto.
Qed.

(* ===================================================================== *)
(** ** Facts about traces and worlds *)

Lemma loads_at_app (a : Z) (t u : list event) :
  loads_at a (t ++ u) = loads_at a t ++ loads_at a u.
Proof.
  induction t as [|e t IH]; simpl; [reflexivity|].
  destruct e; auto. destruct (addr =? a); simpl; congruence.
Qed.

Lemma stores_app (t u : list event) : stores (t ++ u) = stores t ++ stores u.
Proof.
  induction t as [|e t IH]; simpl; [reflexivity|].
  destruct e; simpl; congruence.
Qed.

Lemma closes_app (t u : list event) : closes (t ++ u) = closes t ++ closes u.
Proof.
  induction t as [|e t IH]; simpl; [reflexivity|].
  destruct e; simpl; congruence.
Qed.

Lemma after_loads_frame (a : Z) (k : nat) (w : world) :
  open_fds (after_loads a k w) = open_fds w /\
  mappings (after_loads a k w) = mappings w /\
  latch (after_loads a k w) = latch w.
Proof.
  revert w. induction k as [|k IH]; intros w; simpl; [auto|].
  destruct (IH (log (EvLoad a (Int.wrap (port w (clock w) a))) (tick w)))
    as (H1 & H2 & H3).
  rewrite H1, H2, H3. auto.
Qed.

Lemma after_loads_trace (a : Z) (k : nat) (w : world) :
  trace (after_loads a k w) =
  trace w ++
  map (fun j => EvLoad a (Int.wrap (port w (clock w + j)%nat a))) (seq 0 k).
Proof.
  revert w. induction k as [|k IH]; intros w.
  - simpl. rewrite app_nil_r. reflexivity.
  - simpl after_loads. rewrite IH. simpl trace. simpl port. simpl clock.
    rewrite <- app_assoc. f_equal. simpl.
    rewrite Nat.add_0_r. f_equal.
    rewrite <- seq_shift, map_map.
    apply map_ext. intros j. do 3 f_equal. lia.
Qed.

Lemma loads_at_own (a : Z) (f : nat -> Z) (l : list nat) :
  loads_at a (map (fun j => EvLoad a (f j)) l) = map f l.
Proof.
  induction l as [|j l IH]; simpl; [reflexivity|].
  rewrite Z.eqb_refl, IH. reflexivity.
Qed.

Lemma stores_loads (a : Z) (f : nat -> Z) (l : list nat) :
  stores (map (fun j => EvLoad a (f j)) l) = [].
Proof. induction l; simpl; auto. Qed.

(* ===================================================================== *)
(** ** Facts about the descriptor table *)

Lemma existsb_eqb_In (n : Z) (l : list Z) :
  existsb (Z.eqb n) l = true <-> In n l.
Proof.
  rewrite existsb_exists. split.
  - intros (x & Hx & E). apply Z.eqb_eq in E. subst. exact Hx.
  - intros H. exists n. split; [exact H | apply Z.eqb_refl].
Qed.

Lemma lowest_free_from_lower (fuel : nat) (n : Z) (l : list Z) :
  n <= lowest_free_from fuel n l.
Proof.
  revert n. induction fuel as [|fuel IH]; intros n; simpl; [lia|].
  destruct (existsb (Z.eqb n) l); [|lia].
  specialize (IH (n + 1)). lia.
Qed.

(** Either the search stops on a free number, or every number it tried
    was taken. *)
Lemma lowest_free_from_spec (fuel : nat) (n : Z) (l : list Z) :
  ~ In (lowest_free_from fuel n l) l \/
  (lowest_free_from fuel n l = n + Z.of_nat fuel /\
   forall k, n <= k < n + Z.of_nat fuel -> In k l).
Proof.
  revert n. induction fuel as [|fuel IH]; intros n.
  - right. simpl. split; [lia | intros k Hk; lia].
  - simpl lowest_free_from.
    destruct (existsb (Z.eqb n) l) eqn:E.
    + apply existsb_eqb_In in E.
      destruct (IH (n + 1)) as [H | [H1 H2]]; [left; exact H|].
      right. split; [lia|].
      intros k Hk. destruct (Z.eq_dec k n) as [->|]; [exact E|].
      apply H2. lia.
    + left. intros H. apply existsb_eqb_In in H. congruence.
Qed.

Lemma lowest_free_fresh (l : list Z) : ~ In (lowest_free l) l.
Proof.
  unfold lowest_free.
  destruct (lowest_free_from_spec (List.length l) 0 l) as [H | [H1 H2]];
    [exact H|].
  rewrite H1. intros Hin.
  set (s := map Z.of_nat (seq 0 (S (List.length l)))).
  assert (Hnd : NoDup s).
  { apply Injective_map_NoDup; [|apply seq_NoDup].
    intros x y. apply Nat2Z.inj. }
  assert (Hincl : incl s l).
  { intros z Hz. apply in_map_iff in Hz. destruct Hz as (k & <- & Hk).
    apply in_seq in Hk.
    destruct (Nat.eq_dec k (List.length l)) as [->|]; [exact Hin|].
    apply H2. lia. }
  pose proof (NoDup_incl_length Hnd Hincl) as Hlen.
  unfold s in Hlen. rewrite length_map, length_seq in Hlen. lia.
Qed.

Lemma lowest_free_nonneg (l : list Z) : 0 <= lowest_free l.
Proof. apply lowest_free_from_lower. Qed.

Lemma remove_fresh (d : Z) (l : list Z) :
  ~ In d l -> remove Z.eq_dec d (d :: l) = l.
Proof.
  intros H. simpl. destruct (Z.eq_dec d d) as [_|]; [|congruence].
  apply notin_remove. exact H.
Qed.

(* ===================================================================== *)
(** ** The loop of readkeys *)

Section ReadKeys.

Variable fpga_map : fpga_map_arm_t.

(** One iteration, on a world and an array that allow it. *)
Lemma readkeys_loop_step (steps i : nat) (pk pk' : list Z) (w : world) :
  (i < 32)%nat ->
  array_set pk i (bit_of (Int.not (key_sample fpga_map w 0)) i) = Some pk' ->
  readkeys_loop fpga_map (S steps) i pk w =
  readkeys_loop fpga_map steps (S i) pk' (after_loads (KEY_ptr fpga_map) 1 w).
Proof.
  intros Hi Hset. simpl readkeys_loop. unfold bind at 1, load.
  unfold key_sample in Hset. rewrite Nat.add_0_r in Hset.
  unfold bind at 1. rewrite shr_defined by exact Hi.
  unfold defined at 1. unfold bind at 1.
  rewrite land_shiftr_one, Hset. reflexivity.
Qed.

(** Within the width of [int] and the bounds of the array the loop
    completes, after one load per iteration, and leaves at each index it
    visited the bit of that index in the inversion of what that
    iteration's load obtained. *)
Lemma readkeys_loop_run (steps : nat) :
  forall (i : nat) (pk : list Z) (w : world),
    (i + steps <= 32)%nat -> (i + steps <= List.length pk)%nat ->
    exists out,
      readkeys_loop fpga_map steps i pk w =
        Ok out (after_loads (KEY_ptr fpga_map) steps w) /\
      List.length out = List.length pk /\
      forall j,
        nth j out 0 =
        if (i <=? j)%nat && (j <? i + steps)%nat
        then bit_of (Int.not (key_sample fpga_map w (j - i))) j
        else nth j pk 0.
Proof.
  induction steps as [|steps IH]; intros i pk w H32 Hlen.
  - exists pk. split; [reflexivity|]. split; [reflexivity|].
    intros j.
    destruct (Nat.leb_spec i j), (Nat.ltb_spec j (i + 0)); simpl;
      try reflexivity; lia.
  - destruct (array_set_defined pk i
                (bit_of (Int.not (key_sample fpga_map w 0)) i))
      as [pk' Hset]; [lia|].
    rewrite (readkeys_loop_step steps i pk pk' w) by (lia || exact Hset).
    pose proof (array_set_length _ _ _ _ Hset) as Hlen'.
    destruct (IH (S i) pk' (after_loads (KEY_ptr fpga_map) 1 w)) as (out & Hrun & Hl & Hn);
      [lia | lia |].
    exists out. split; [exact Hrun|]. split; [congruence|].
    intros j. rewrite Hn, (array_set_nth _ _ _ _ j Hset).
    unfold key_sample. simpl after_loads. simpl clock. simpl port.
    destruct (Nat.leb_spec (S i) j), (Nat.ltb_spec j (S i + steps)),
      (Nat.leb_spec i j), (Nat.ltb_spec j (i + S steps)),
      (Nat.eqb_spec j i); simpl; try lia; try reflexivity.
    + do 4 f_equal. lia.
    + subst j. rewrite Nat.sub_diag. reflexivity.
Qed.

(** The loop completes only within the width of [int] and the bounds of
    the array. *)
Lemma readkeys_loop_inv (steps : nat) :
  forall (i : nat) (pk out : list Z) (w w' : world),
    readkeys_loop fpga_map steps i pk w = Ok out w' ->
    steps = O \/ ((i + steps <= 32)%nat /\ (i + steps <= List.length pk)%nat).
Proof.
  induction steps as [|steps IH]; intros i pk out w w' H; [left; reflexivity|].
  right. simpl readkeys_loop in H. unfold bind at 1, load in H.
  unfold bind at 1 in H.
  destruct (Nat.lt_ge_cases i 32) as [Hi|Hi].
  2:{ rewrite shr_undefined in H by exact Hi. discriminate. }
  rewrite shr_defined in H by exact Hi.
  unfold defined at 1 in H. unfold bind at 1 in H.
  destruct (array_set pk i _) as [pk'|] eqn:Hset; [|discriminate].
  unfold defined at 1 in H.
  pose proof (array_set_bound _ _ _ _ Hset) as Hb.
  pose proof (array_set_length _ _ _ _ Hset) as Hl.
  apply IH in H. destruct H as [-> | [H1 H2]]; lia.
Qed.

End ReadKeys.

(* ===================================================================== *)
(** ** numbertodigit and setdigit *)

(** Case analysis of a positive number, a few bits deep: every case either
    computes or is excluded by the arithmetic hypotheses. *)
Ltac split_pos q := destruct q as [q|q|]; try reflexivity; try lia.

Lemma numbertodigit_outside (v : Z) :
  v < 0 \/ 9 < v -> numbertodigit v = 0.
Proof.
  intros H. destruct v as [|q|q]; [lia | | reflexivity].
  split_pos q; split_pos q; split_pos q; split_pos q.
Qed.

Lemma numbertodigit_inside (v : Z) :
  0 <= v <= 9 -> numbertodigit v = seven_segment (glyph v).
Proof.
  intros H.
  assert (v = 0 \/ v = 1 \/ v = 2 \/ v = 3 \/ v = 4 \/
          v = 5 \/ v = 6 \/ v = 7 \/ v = 8 \/ v = 9) as Hv by lia.
  repeat (destruct Hv as [-> | Hv]; [reflexivity|]).
  subst v. reflexivity.
Qed.

(** Every pattern fits in the seven low bits. *)
Lemma numbertodigit_bound (v : Z) : 0 <= numbertodigit v < 128.
Proof.
  destruct (Z.lt_ge_cases v 0) as [Hn|Hn].
  - rewrite numbertodigit_outside by lia. lia.
  - destruct (Z.lt_ge_cases 9 v) as [Hp|Hp].
    + rewrite numbertodigit_outside by lia. lia.
    + assert (v = 0 \/ v = 1 \/ v = 2 \/ v = 3 \/ v = 4 \/
              v = 5 \/ v = 6 \/ v = 7 \/ v = 8 \/ v = 9) as Hv by lia.
      repeat (destruct Hv as [-> | Hv]; [vm_compute; split; congruence|]).
      subst v. vm_compute; split; congruence.
Qed.

Lemma position_cases (p : Z) :
  0 <= p <= 5 ->
  p = 0 \/ p = 1 \/ p = 2 \/ p = 3 \/ p = 4 \/ p = 5.
Proof. lia. Qed.

(** C2. For every [v] from 0 to 9, [numbertodigit v] is the pattern that
    lights the segments of the digit [v] on a standard seven-segment
    display, with bit 0 for segment A up to bit 6 for segment G; in
    particular 0 gives 0b0111111 and 8 gives 0b1111111.  For every [v]
    outside that range, negative ones included, it is 0. *)
Theorem numbertodigit_table (v : Z) :
  (0 <= v <= 9 -> numbertodigit v = seven_segment (glyph v)) /\
  numbertodigit 0 = Int.bin "0111111" /\
  numbertodigit 8 = Int.bin "1111111" /\
  map numbertodigit [0; 1; 2; 3; 4; 5; 6; 7; 8; 9] =
    [0x3F; 0x06; 0x5B; 0x4F; 0x66; 0x6D; 0x7D; 0x07; 0x7F; 0x6F] /\
  (v < 0 \/ 9 < v -> numbertodigit v = 0).
Proof.
  split; [apply numbertodigit_inside|].
  split; [reflexivity|]. split; [reflexivity|]. split; [reflexivity|].
  apply numbertodigit_outside.
Qed.

(** C3. For every value [v] and every position [p] from 0 to 5,
    [setdigit] completes after exactly one store, made to the display
    register that [p] selects, of the bitwise complement of
    [numbertodigit v]; the register then holds that value, no other
    register changes, and nothing else happens. *)
Theorem setdigit_writes_complement
    (m : fpga_map_arm_t) (v p : Z) (w : world) :
  0 <= p <= 5 ->
  exists w',
    setdigit m v p w = Ok tt w' /\
    stores (trace w') =
      stores (trace w) ++ [(HEX_ptr m p, Int.not (numbertodigit v))] /\
    trace w' = trace w ++ [EvStore (HEX_ptr m p) (Int.not (numbertodigit v))] /\
    latch w' (HEX_ptr m p) = Int.not (numbertodigit v) /\
    (forall a, a <> HEX_ptr m p -> latch w' a = latch w a) /\
    Int.in_range (Int.not (numbertodigit v)) /\
    open_fds w' = open_fds w /\ mappings w' = mappings w /\ clock w' = clock w.
Proof.
  intros Hp.
  assert (Hr : Int.in_range (Int.not (numbertodigit v))).
  { apply not_in_range. pose proof (numbertodigit_bound v).
    unfold Int.in_range, Int.min_signed, Int.max_signed. lia. }
  destruct (position_cases p Hp) as [-> | [-> | [-> | [-> | [-> | ->]]]]];
    (eexists; split; [reflexivity|];
     split; [simpl trace; rewrite stores_app; reflexivity|];
     split; [reflexivity|];
     split; [simpl latch; rewrite Z.eqb_refl; reflexivity|];
     split; [intros a Ha; simpl latch;
             match goal with
             | |- context [a =? ?x] =>
                 destruct (Z.eqb_spec a x) as [E|E];
                 [exfalso; apply Ha; exact E | reflexivity]
             end|];
     split; [exact Hr|]; repeat split).
Qed.

(** A structure and a world on which C3 can be run: 7 on display 2. *)
Lemma setdigit_writes_complement_witness :
  0 <= 2 <= 5 /\
  exists w',
    setdigit example_map 7 2 (example_world key0_held) = Ok tt w' /\
    stores (trace w') =
      stores (trace (example_world key0_held)) ++
      [(HEX_ptr example_map 2, Int.not (numbertodigit 7))] /\
    trace w' = trace (example_world key0_held) ++
      [EvStore (HEX_ptr example_map 2) (Int.not (numbertodigit 7))] /\
    latch w' (HEX_ptr example_map 2) = Int.not (numbertodigit 7) /\
    (forall a, a <> HEX_ptr example_map 2 ->
               latch w' a = latch (example_world key0_held) a) /\
    Int.in_range (Int.not (numbertodigit 7)) /\
    open_fds w' = open_fds (example_world key0_held) /\
    mappings w' = mappings (example_world key0_held) /\
    clock w' = clock (example_world key0_held).
Proof.
  split; [lia|].
  apply (setdigit_writes_complement example_map 7 2 (example_world key0_held)).
  lia.
Defined.

(** C4. For every value [v] and every position [p] below 0 or above 5,
    [setdigit] completes without a store and leaves the world, the six
    display registers included, exactly as it found it; there is no
    error to report, the function returning nothing. *)
Theorem setdigit_out_of_range_noop
    (m : fpga_map_arm_t) (v p : Z) (w : world) :
  p < 0 \/ 5 < p ->
  setdigit m v p w = Ok tt w /\
  (forall w', setdigit m v p w = Ok tt w' ->
     stores (trace w') = stores (trace w) /\
     forall q, latch w' (HEX_ptr m q) = latch w (HEX_ptr m q)).
Proof.
  intros H.
  assert (E : setdigit m v p w = Ok tt w).
  { destruct p as [|q|q]; [lia | | reflexivity].
    split_pos q; split_pos q; split_pos q. }
  split; [exact E|].
  intros w' E'. rewrite E in E'. inversion E'; subst. auto.
Qed.

(** C4 run on position 6, one past the last display. *)
Lemma setdigit_out_of_range_noop_witness :
  (6 < 0 \/ 5 < 6) /\
  setdigit example_map 7 6 (example_world key0_held) =
    Ok tt (example_world key0_held) /\
  (forall w',
     setdigit example_map 7 6 (example_world key0_held) = Ok tt w' ->
     stores (trace w') = stores (trace (example_world key0_held)) /\
     forall q, latch w' (HEX_ptr example_map q) =
               latch (example_world key0_held) (HEX_ptr example_map q)).
Proof.
  split; [lia|].
  apply (setdigit_out_of_range_noop example_map 7 6 (example_world key0_held)).
  lia.
Defined.

(** C9. For every value [v], complementing the pattern of
    [numbertodigit v] twice gives the pattern back; both complements are
    values of an [int], so this is what the C operator computes. *)
Theorem numbertodigit_complement_involutive (v : Z) :
  Int.not (Int.not (numbertodigit v)) = numbertodigit v /\
  Int.in_range (numbertodigit v) /\
  Int.in_range (Int.not (numbertodigit v)).
Proof.
  assert (Hr : Int.in_range (numbertodigit v)).
  { pose proof (numbertodigit_bound v).
    unfold Int.in_range, Int.min_signed, Int.max_signed. lia. }
  split; [apply Z.lnot_involutive|].
  split; [exact Hr | apply not_in_range; exact Hr].
Qed.

(* ===================================================================== *)
(** ** fpgainit and fpgaclose *)

Section Lifecycle.

Variable hdr : header.

(** First way out of [fpgainit]: /dev/mem does not open. *)
Lemma fpgainit_open_fails (m : fpga_map_arm_t) (w : world) :
  dev_mem_opens w = false ->
  fpgainit hdr m w =
  Ok (-1, set_fd m (-1))
     (log (EvPrintf "Couldn't open /dev/mem")
          (log (EvOpen "/dev/mem" (-1)) w)).
Proof.
  intros H. unfold fpgainit, bind, sys_open. rewrite H. reflexivity.
Qed.

(** Second way out: the window does not map. *)
Lemma fpgainit_map_fails (m : fpga_map_arm_t) (w : world) :
  dev_mem_opens w = true -> mmap_page w = None ->
  fpgainit hdr m w =
  Ok (ERROR, set_mapped_ptr (set_fd m (new_fd w)) MAP_FAILED)
     (log (EvClose (new_fd w))
          (with_fds (open_fds w)
             (log (EvPrintf "Couldn't map /dev/mem")
                (log (EvMmap (LW_BRIDGE_SPAN hdr) (new_fd w)
                             (LW_BRIDGE_BASE hdr) MAP_FAILED)
                     (opened w))))).
Proof.
  intros Ho Hm.
  rewrite <- (remove_fresh (new_fd w) (open_fds w)) at 1
    by apply lowest_free_fresh.
  unfold fpgainit, bind, sys_open. rewrite Ho.
  change (fd (set_fd m (lowest_free (open_fds w)))) with (new_fd w).
  destruct (Z.eqb_spec (new_fd w) (-1)) as [E|_].
  { pose proof (lowest_free_nonneg (open_fds w)). unfold new_fd in E. lia. }
  unfold sys_mmap. simpl mmap_page. rewrite Hm.
  reflexivity.
Qed.

(** The way through: the structure is filled in from the mapping. *)
Lemma fpgainit_succeeds (m : fpga_map_arm_t) (w : world) (p : N) :
  dev_mem_opens w = true -> mmap_page w = Some p ->
  let base := Z.of_N p * PAGE_SIZE in
  fpgainit hdr m w =
  Ok (SUCCESS,
      mkMap (new_fd w) base (base + KEY_BASE hdr)
            (base + HEX5_BASE hdr) (base + HEX4_BASE hdr)
            (base + HEX3_BASE hdr) (base + HEX2_BASE hdr)
            (base + HEX1_BASE hdr) (base + HEX0_BASE hdr))
     (log (EvMmap (LW_BRIDGE_SPAN hdr) (new_fd w) (LW_BRIDGE_BASE hdr) base)
          (with_mappings (base :: mappings w) (opened w))).
Proof.
  intros Ho Hm base. unfold fpgainit, bind, sys_open. rewrite Ho.
  change (fd (set_fd m (lowest_free (open_fds w)))) with (new_fd w).
  destruct (Z.eqb_spec (new_fd w) (-1)) as [E|_].
  { pose proof (lowest_free_nonneg (open_fds w)). unfold new_fd in E. lia. }
  unfold sys_mmap. simpl mmap_page. rewrite Hm.
  cbn [mapped_ptr set_mapped_ptr].
  destruct (Z.eqb_spec (Z.of_N p * PAGE_SIZE) MAP_FAILED) as [E|_].
  { unfold MAP_FAILED, PAGE_SIZE in E. lia. }
  reflexivity.
Qed.

(** First way out of [fpgaclose]: the window does not unmap. *)
Lemma fpgaclose_unmap_fails (m : fpga_map_arm_t) (w : world) :
  munmap_accepts w = false ->
  fpgaclose hdr m w =
  Ok (ERROR, m)
     (log (EvPrintf "Couldn't munmap /dev/mem")
          (log (EvMunmap (mapped_ptr m) (LW_BRIDGE_SPAN hdr) (-1)) w)).
Proof.
  intros H. unfold fpgaclose, bind, sys_munmap. rewrite H. reflexivity.
Qed.

(** The window unmaps and the structure holds a descriptor. *)
Lemma fpgaclose_closes (m : fpga_map_arm_t) (w : world) :
  munmap_accepts w = true -> 0 <= fd m ->
  fpgaclose hdr m w =
  Ok (SUCCESS, set_fd m (-1))
     (log (EvClose (fd m))
          (with_fds (remove Z.eq_dec (fd m) (open_fds w)) (unmapped (LW_BRIDGE_SPAN hdr) m w))).
Proof.
  intros H Hfd. unfold fpgaclose, bind, sys_munmap. rewrite H. simpl negb.
  cbv iota. destruct (Z.geb_spec (fd m) 0) as [_|E]; [|lia]. reflexivity.
Qed.

(** The window unmaps and the structure holds no descriptor. *)
Lemma fpgaclose_skips_close (m : fpga_map_arm_t) (w : world) :
  munmap_accepts w = true -> fd m < 0 ->
  fpgaclose hdr m w = Ok (SUCCESS, m) (unmapped (LW_BRIDGE_SPAN hdr) m w).
Proof.
  intros H Hfd. unfold fpgaclose, bind, sys_munmap. rewrite H. simpl negb.
  cbv iota. destruct (Z.geb_spec (fd m) 0) as [E|_]; [lia|]. reflexivity.
Qed.

End Lifecycle.

(** C6. [fpgainit] always returns, and it returns a negative status in
    exactly two cases.  When /dev/mem does not open: the status is -1,
    the structure's descriptor is the invalid -1, nothing is mapped and
    nothing is closed.  When /dev/mem opens and the window does not map:
    the status is [ERROR], and the last thing done before returning is to
    close the descriptor just opened.  In both cases the descriptors open
    after the call are those open before it.  In every other case the
    status is [SUCCESS]. *)
Theorem fpgainit_failure_paths
    (hdr : header) (m : fpga_map_arm_t) (w : world) :
  exists rc m' w',
    fpgainit hdr m w = Ok (rc, m') w' /\
    (rc < 0 <-> dev_mem_opens w = false \/ mmap_page w = None) /\
    (rc = SUCCESS <-> dev_mem_opens w = true /\ mmap_page w <> None) /\
    (rc < 0 -> open_fds w' = open_fds w /\ mappings w' = mappings w) /\
    (dev_mem_opens w = false ->
       rc = -1 /\ fd m' = -1 /\
       trace w' = trace w ++ [EvOpen "/dev/mem" (-1);
                              EvPrintf "Couldn't open /dev/mem"]) /\
    (dev_mem_opens w = true -> mmap_page w = None ->
       rc = ERROR /\ 0 <= fd m' /\ ~ In (fd m') (open_fds w) /\
       trace w' = trace w ++ [EvOpen "/dev/mem" (fd m');
                              EvMmap (LW_BRIDGE_SPAN hdr) (fd m')
                                     (LW_BRIDGE_BASE hdr) MAP_FAILED;
                              EvPrintf "Couldn't map /dev/mem";
                              EvClose (fd m')]).
Proof.
  destruct (dev_mem_opens w) eqn:Ho; [destruct (mmap_page w) as [p|] eqn:Hm|].
  - (* both succeed *)
    do 3 eexists. split; [apply (fpgainit_succeeds hdr m w p Ho Hm)|].
    unfold SUCCESS.
    split; [split; [lia | intros [H|H]; discriminate]|].
    split; [split; [intros _; split; [reflexivity | discriminate] | reflexivity]|].
    split; [lia|].
    split; [discriminate | intros _ H; discriminate].
  - (* the window does not map *)
    do 3 eexists. split; [apply (fpgainit_map_fails hdr m w Ho Hm)|].
    unfold ERROR, SUCCESS.
    split; [split; [auto | lia]|].
    split; [split; [lia | intros [_ H]; congruence]|].
    split; [intros _; split; reflexivity|].
    split; [discriminate|].
    intros _ _. split; [reflexivity|].
    split; [apply lowest_free_nonneg|].
    split; [apply lowest_free_fresh|].
    simpl. rewrite <- !app_assoc. reflexivity.
  - (* /dev/mem does not open *)
    do 3 eexists. split; [apply (fpgainit_open_fails hdr m w Ho)|].
    unfold SUCCESS.
    split; [split; [auto | lia]|].
    split; [split; [lia | intros [H _]; discriminate]|].
    split; [intros _; split; reflexivity|].
    split; [|discriminate].
    intros _. split; [reflexivity|]. split; [reflexivity|].
    simpl. rewrite <- !app_assoc. reflexivity.
Qed.

(** C6 run on a kernel that opens /dev/mem and refuses the mapping:
    descriptor 3 is opened, then closed again. *)
Lemma fpgainit_failure_paths_witness :
  let w := mkWorld [0; 1; 2] [] true None true (fun _ _ => 0) O
                   (fun _ => 0) [] in
  exists m' w',
    fpgainit example_header blank_map w = Ok (ERROR, m') w' /\
    fd m' = 3 /\ closes (trace w') = [3] /\ open_fds w' = [0; 1; 2].
Proof.
  intros w.
  destruct (fpgainit_failure_paths example_header blank_map w)
    as (rc & m' & w' & Hrun & Hneg & _ & Hleak & _ & Hmap).
  destruct (Hmap eq_refl eq_refl) as (Hrc & _ & _ & Htr).
  subst rc. exists m', w'. split; [exact Hrun|].
  assert (E : Ok (ERROR, m') w' = fpgainit example_header blank_map w)
    by (symmetry; exact Hrun).
  vm_compute in E. inversion E; subst. repeat split.
Defined.

(** C7. [fpgaclose] always returns.  When the window does not unmap it
    returns [ERROR], closes nothing and leaves the structure, its
    descriptor included, as it was.  When the window unmaps it returns
    [SUCCESS], and it closes the structure's descriptor exactly when that
    descriptor is at least 0, setting the field to -1 afterwards; a
    negative descriptor, such as the -1 a failed [fpgainit] leaves, is
    not handed to [close] and the structure is left as it was. *)
Theorem fpgaclose_descriptor
    (hdr : header) (m : fpga_map_arm_t) (w : world) :
  exists rc m' w',
    fpgaclose hdr m w = Ok (rc, m') w' /\
    (munmap_accepts w = false ->
       rc = ERROR /\ m' = m /\
       closes (trace w') = closes (trace w) /\
       open_fds w' = open_fds w /\ mappings w' = mappings w) /\
    (munmap_accepts w = true -> 0 <= fd m ->
       rc = SUCCESS /\
       closes (trace w') = closes (trace w) ++ [fd m] /\
       open_fds w' = remove Z.eq_dec (fd m) (open_fds w) /\
       ~ In (fd m) (open_fds w') /\
       m' = set_fd m (-1) /\ fd m' = -1) /\
    (munmap_accepts w = true -> fd m < 0 ->
       rc = SUCCESS /\ m' = m /\
       closes (trace w') = closes (trace w) /\
       open_fds w' = open_fds w).
Proof.
  destruct (munmap_accepts w) eqn:Hu; [destruct (Z.le_gt_cases 0 (fd m)) as [Hfd|Hfd]|].
  - do 3 eexists. split; [apply (fpgaclose_closes hdr m w Hu Hfd)|].
    split; [discriminate|]. split; [|intros _ H; lia].
    intros _ _. split; [reflexivity|].
    split; [simpl trace; rewrite !closes_app, app_nil_r; reflexivity|].
    split; [reflexivity|].
    split; [simpl open_fds; apply remove_In|].
    split; reflexivity.
  - do 3 eexists. split; [apply (fpgaclose_skips_close hdr m w Hu Hfd)|].
    split; [discriminate|]. split; [intros _ H; lia|].
    intros _ _. split; [reflexivity|]. split; [reflexivity|].
    split; [simpl trace; rewrite closes_app, app_nil_r; reflexivity|].
    reflexivity.
  - do 3 eexists. split; [apply (fpgaclose_unmap_fails hdr m w Hu)|].
    split; [|split; discriminate].
    intros _. split; [reflexivity|]. split; [reflexivity|].
    split; [simpl trace; rewrite !closes_app, !app_nil_r; reflexivity|].
    split; reflexivity.
Qed.

(** C7 run after a failed [fpgainit]: the descriptor field is -1, the
    window unmaps, and nothing is closed. *)
Lemma fpgaclose_descriptor_witness :
  let m := set_fd blank_map (-1) in
  let w := example_world key0_held in
  exists w',
    fpgaclose example_header m w = Ok (SUCCESS, m) w' /\
    closes (trace w') = [] /\ open_fds w' = [0; 1; 2].
Proof.
  intros m w.
  destruct (fpgaclose_descriptor example_header m w)
    as (rc & m' & w' & Hrun & _ & _ & Hskip).
  destruct (Hskip eq_refl ltac:(reflexivity)) as (Hrc & Hm & Hcl & Hfds).
  subst rc m'. exists w'. split; [exact Hrun|].
  split; [exact Hcl | exact Hfds].
Defined.

(** C8. Whenever [fpgainit] returns [SUCCESS] the structure is fully
    populated: its descriptor is at least 0 and open, its mapping base is
    a live mapping and not [MAP_FAILED], and each of the seven register
    pointers, the buttons' and those of HEX0 to HEX5, is the mapping base
    plus the byte offset of its register. *)
Theorem fpgainit_populates
    (hdr : header) (m m' : fpga_map_arm_t) (w w' : world) (rc : Z) :
  fpgainit hdr m w = Ok (rc, m') w' ->
  rc = SUCCESS ->
  0 <= fd m' /\ In (fd m') (open_fds w') /\ ~ In (fd m') (open_fds w) /\
  mapped_ptr m' <> MAP_FAILED /\ In (mapped_ptr m') (mappings w') /\
  KEY_ptr m' = mapped_ptr m' + KEY_BASE hdr /\
  HEX0_ptr m' = mapped_ptr m' + HEX0_BASE hdr /\
  HEX1_ptr m' = mapped_ptr m' + HEX1_BASE hdr /\
  HEX2_ptr m' = mapped_ptr m' + HEX2_BASE hdr /\
  HEX3_ptr m' = mapped_ptr m' + HEX3_BASE hdr /\
  HEX4_ptr m' = mapped_ptr m' + HEX4_BASE hdr /\
  HEX5_ptr m' = mapped_ptr m' + HEX5_BASE hdr.
Proof.
  intros Hrun Hrc.
  destruct (dev_mem_opens w) eqn:Ho; [destruct (mmap_page w) as [p|] eqn:Hm|].
  - rewrite (fpgainit_succeeds hdr m w p Ho Hm) in Hrun.
    inversion Hrun; subst; clear Hrun. cbn [fd mapped_ptr KEY_ptr HEX0_ptr
      HEX1_ptr HEX2_ptr HEX3_ptr HEX4_ptr HEX5_ptr].
    split; [apply lowest_free_nonneg|].
    split; [simpl; auto|].
    split; [apply lowest_free_fresh|].
    split; [unfold MAP_FAILED, PAGE_SIZE; lia|].
    split; [simpl; auto|].
    repeat split.
  - rewrite (fpgainit_map_fails hdr m w Ho Hm) in Hrun.
    inversion Hrun; subst. discriminate.
  - rewrite (fpgainit_open_fails hdr m w Ho) in Hrun.
    inversion Hrun; subst. discriminate.
Qed.

(** C8 run on a kernel that grants everything: descriptor 3, window at
    0x1000. *)
Lemma fpgainit_populates_witness :
  fpgainit example_header blank_map (example_world key0_held) =
    Ok (SUCCESS, example_map)
       (log (EvMmap 0x5000 3 0xFF200000 0x1000)
            (with_mappings [0x1000] (opened (example_world key0_held)))) /\
  SUCCESS = SUCCESS /\
  0 <= fd example_map /\ In (fd example_map) [3; 0; 1; 2] /\
  ~ In (fd example_map) [0; 1; 2] /\
  mapped_ptr example_map <> MAP_FAILED /\
  In (mapped_ptr example_map) [0x1000] /\
  KEY_ptr example_map = mapped_ptr example_map + KEY_BASE example_header /\
  HEX0_ptr example_map = mapped_ptr example_map + HEX0_BASE example_header /\
  HEX1_ptr example_map = mapped_ptr example_map + HEX1_BASE example_header /\
  HEX2_ptr example_map = mapped_ptr example_map + HEX2_BASE example_header /\
  HEX3_ptr example_map = mapped_ptr example_map + HEX3_BASE example_header /\
  HEX4_ptr example_map = mapped_ptr example_map + HEX4_BASE example_header /\
  HEX5_ptr example_map = mapped_ptr example_map + HEX5_BASE example_header.
Proof.
  split; [reflexivity|]. split; [reflexivity|].
  apply (fpgainit_populates example_header blank_map example_map
           (example_world key0_held)
           (log (EvMmap 0x5000 3 0xFF200000 0x1000)
                (with_mappings [0x1000] (opened (example_world key0_held))))
           SUCCESS);
    reflexivity.
Defined.

(* ===================================================================== *)
(** ** readkeys *)

(** Within the width of [int] and the bounds of the array, [readkeys]
    completes after [n] loads of the button register. *)
Lemma readkeys_run (m : fpga_map_arm_t) (pk : list Z) (n : nat) (w : world) :
  (n <= 32)%nat -> (n <= List.length pk)%nat ->
  exists out,
    readkeys m pk n w = Ok out (after_loads (KEY_ptr m) n w) /\
    List.length out = List.length pk /\
    (forall i, (i < n)%nat ->
               nth i out 0 = bit_of (Int.not (key_sample m w i)) i) /\
    (forall i, (n <= i)%nat -> nth i out 0 = nth i pk 0).
Proof.
  intros H32 Hlen.
  destruct (readkeys_loop_run m n 0 pk w) as (out & Hrun & Hl & Hn);
    [lia | lia |].
  exists out. split; [exact Hrun|]. split; [exact Hl|].
  split; intros i Hi; rewrite Hn; cbn [Nat.leb andb Nat.add];
    destruct (Nat.ltb_spec i n); try lia; try reflexivity.
  rewrite Nat.sub_0_r. reflexivity.
Qed.

(** [readkeys] completes exactly when there is nothing to do or the size
    is within the width of [int] and the bounds of the array. *)
Lemma readkeys_defined_iff
    (m : fpga_map_arm_t) (pk : list Z) (n : nat) (w : world) :
  (exists out w', readkeys m pk n w = Ok out w') <->
  n = O \/ ((n <= 32)%nat /\ (n <= List.length pk)%nat).
Proof.
  split.
  - intros (out & w' & H). apply readkeys_loop_inv in H. simpl in H. exact H.
  - intros [-> | [H1 H2]].
    + exists pk, w. reflexivity.
    + destruct (readkeys_run m pk n w H1 H2) as (out & Hrun & _). eauto.
Qed.

Lemma key_bits_length (x : Z) (n : nat) : List.length (key_bits x n) = n.
Proof. unfold key_bits. rewrite length_map, length_seq. reflexivity. Qed.

Lemma key_bits_nth (x : Z) (n i : nat) :
  (i < n)%nat -> nth i (key_bits x n) 0 = bit_of x i.
Proof.
  intros Hi. unfold key_bits.
  rewrite (nth_indep _ 0 (bit_of x 0)) by (rewrite length_map, length_seq; lia).
  rewrite map_nth, seq_nth by lia. reflexivity.
Qed.

(** An array whose first [n] cells hold the bits of [x] and whose other
    cells are those of [pk] is the one the specification describes. *)
Lemma key_bits_ext (x : Z) (n : nat) (pk out : list Z) :
  (n <= List.length pk)%nat ->
  List.length out = List.length pk ->
  (forall i, (i < n)%nat -> nth i out 0 = bit_of x i) ->
  (forall i, (n <= i)%nat -> nth i out 0 = nth i pk 0) ->
  out = key_bits x n ++ skipn n pk.
Proof.
  intros Hn Hl Hlo Hhi.
  apply (nth_ext _ _ 0 0).
  - rewrite length_app, key_bits_length, length_skipn. lia.
  - intros i Hi. destruct (Nat.lt_ge_cases i n) as [Hin|Hin].
    + rewrite app_nth1 by (rewrite key_bits_length; exact Hin).
      rewrite key_bits_nth by exact Hin. apply Hlo. exact Hin.
    + rewrite app_nth2 by (rewrite key_bits_length; exact Hin).
      rewrite key_bits_length, nth_skipn, Hhi by exact Hin.
      f_equal. lia.
Qed.

(** C1, as the code has it.  For every size [n] within the width of
    [int] and the bounds of the array, [readkeys] completes after exactly
    [n] loads of the button register, one per index and none when [n] is
    0, stores nothing in the window, and leaves at each index [i] below
    [n] bit [i] of the inversion of what the load of iteration [i]
    obtained.  When all these loads obtain
    the same value, the array is left as the version that reads the
    register once leaves it. *)
Theorem readkeys_reads_once_per_index
    (m : fpga_map_arm_t) (pk : list Z) (n : nat) (w : world) :
  (n <= 32)%nat -> (n <= List.length pk)%nat ->
  exists out w',
    readkeys m pk n w = Ok out w' /\
    loads_at (KEY_ptr m) (trace w') =
      loads_at (KEY_ptr m) (trace w) ++ map (key_sample m w) (seq 0 n) /\
    List.length (loads_at (KEY_ptr m) (trace w')) =
      (List.length (loads_at (KEY_ptr m) (trace w)) + n)%nat /\
    stores (trace w') = stores (trace w) /\
    latch w' = latch w /\
    (forall i, (i < n)%nat ->
               nth i out 0 = bit_of (Int.not (key_sample m w i)) i) /\
    (forall r, (forall j, (j < n)%nat -> key_sample m w j = r) ->
               exists w1, readkeys_once m pk n w = Ok out w1).
Proof.
  intros H32 Hlen.
  destruct (readkeys_run m pk n w H32 Hlen) as (out & Hrun & Hl & Hlo & Hhi).
  exists out, (after_loads (KEY_ptr m) n w).
  assert (Hloads :
    loads_at (KEY_ptr m) (trace (after_loads (KEY_ptr m) n w)) =
    loads_at (KEY_ptr m) (trace w) ++ map (key_sample m w) (seq 0 n)).
  { rewrite after_loads_trace, loads_at_app.
    rewrite (loads_at_own (KEY_ptr m)
               (fun j => Int.wrap (port w (clock w + j)%nat (KEY_ptr m)))).
    reflexivity. }
  split; [exact Hrun|]. split; [exact Hloads|].
  split; [rewrite Hloads, length_app, length_map, length_seq; reflexivity|].
  split; [rewrite after_loads_trace, stores_app, stores_loads;
          apply app_nil_r|].
  split; [apply after_loads_frame|]. split; [exact Hlo|].
  intros r Hr. unfold readkeys_once, bind, load, ret. eexists. f_equal.
  symmetry. apply key_bits_ext; try assumption.
  intros i Hi. rewrite (Hlo i Hi), (Hr i Hi).
  destruct n as [|n']; [lia|].
  rewrite <- (Hr O ltac:(lia)). unfold key_sample.
  rewrite Nat.add_0_r. reflexivity.
Qed.

(** C1, as the code has it, run on four buttons with button 0 held. *)
Lemma readkeys_reads_once_per_index_witness :
  (4 <= 32)%nat /\ (4 <= List.length [0; 0; 0; 0])%nat /\
  exists out w',
    readkeys example_map [0; 0; 0; 0] 4 (example_world key0_held) =
      Ok out w' /\
    loads_at (KEY_ptr example_map) (trace w') =
      loads_at (KEY_ptr example_map) (trace (example_world key0_held)) ++
      map (key_sample example_map (example_world key0_held)) (seq 0 4) /\
    List.length (loads_at (KEY_ptr example_map) (trace w')) =
      (List.length (loads_at (KEY_ptr example_map)
                             (trace (example_world key0_held))) + 4)%nat /\
    stores (trace w') = stores (trace (example_world key0_held)) /\
    latch w' = latch (example_world key0_held) /\
    (forall i, (i < 4)%nat ->
       nth i out 0 =
       bit_of (Int.not (key_sample example_map (example_world key0_held) i))
              i) /\
    (forall r,
       (forall j, (j < 4)%nat ->
          key_sample example_map (example_world key0_held) j = r) ->
       exists w1,
         readkeys_once example_map [0; 0; 0; 0] 4 (example_world key0_held) =
           Ok out w1).
Proof.
  split; [lia|]. split; [simpl; lia|].
  apply (readkeys_reads_once_per_index example_map [0; 0; 0; 0] 4
           (example_world key0_held)); simpl; lia.
Defined.

(** C1, as the specification has it, fails: [readkeys] loads the button
    register once per index, not once per call.  With two indexes, and
    button 0 released and button 1 pressed between the two loads, it
    loads twice and reports both buttons pressed, where the version that
    reads once loads once and reports button 0 only; and with no index it
    does not load at all, where the version that reads once still does. *)
Lemma readkeys_reads_once_counterexample :
  (exists w',
     readkeys example_map [0; 0] 2 (example_world key0_then_key1) =
       Ok [1; 1] w' /\
     loads_at (KEY_ptr example_map) (trace w') = [0xFE; 0xFD]) /\
  (exists w1,
     readkeys_once example_map [0; 0] 2 (example_world key0_then_key1) =
       Ok [1; 0] w1 /\
     loads_at (KEY_ptr example_map) (trace w1) = [0xFE]) /\
  (exists w',
     readkeys example_map [] 0 (example_world key0_held) = Ok [] w' /\
     loads_at (KEY_ptr example_map) (trace w') = []) /\
  (exists w1,
     readkeys_once example_map [] 0 (example_world key0_held) = Ok [] w1 /\
     loads_at (KEY_ptr example_map) (trace w1) = [0xFE]) /\
  readkeys example_map [0; 0] 2 (example_world key0_then_key1) <>
  readkeys_once example_map [0; 0] 2 (example_world key0_then_key1).
Proof.
  split; [eexists; split; reflexivity|].
  split; [eexists; split; reflexivity|].
  split; [eexists; split; reflexivity|].
  split; [eexists; split; reflexivity|].
  intros E. vm_compute in E. discriminate E.
Qed.

(** C5, as the code has it.  For every raw value [r] of the button
    register and every size [n] within the width of [int] (32) and the
    bounds of the array, when the register presents [r] throughout the
    call, [readkeys] completes and leaves at each index [i] below [n] bit
    [i] of the bitwise inversion of [r], and the cells from [n] on as they
    were; in particular [r] = 0xFE and [n] = 4 give 1, 0, 0, 0. *)
Theorem readkeys_inverted_bits
    (m : fpga_map_arm_t) (pk : list Z) (n : nat) (w : world) (r : Z) :
  (n <= 32)%nat -> (n <= List.length pk)%nat ->
  (forall j, (j < n)%nat -> key_sample m w j = r) ->
  exists out w',
    readkeys m pk n w = Ok out w' /\
    List.length out = List.length pk /\
    (forall i, (i < n)%nat -> nth i out 0 = bit_of (Int.not r) i) /\
    (forall i, (n <= i)%nat -> nth i out 0 = nth i pk 0) /\
    firstn n out = key_bits (Int.not r) n /\
    (r = 0xFE -> n = 4%nat -> firstn 4 out = [1; 0; 0; 0]).
Proof.
  intros H32 Hlen Hr.
  destruct (readkeys_run m pk n w H32 Hlen) as (out & Hrun & Hl & Hlo & Hhi).
  exists out, (after_loads (KEY_ptr m) n w).
  assert (Hbits : forall i, (i < n)%nat -> nth i out 0 = bit_of (Int.not r) i).
  { intros i Hi. rewrite (Hlo i Hi), (Hr i Hi). reflexivity. }
  assert (Hfirst : firstn n out = key_bits (Int.not r) n).
  { rewrite (key_bits_ext (Int.not r) n pk out Hlen Hl Hbits Hhi).
    rewrite firstn_app, key_bits_length, Nat.sub_diag.
    simpl firstn at 2. rewrite app_nil_r.
    apply firstn_all2. rewrite key_bits_length. lia. }
  split; [exact Hrun|]. split; [exact Hl|]. split; [exact Hbits|].
  split; [exact Hhi|]. split; [exact Hfirst|].
  intros -> ->. rewrite Hfirst. reflexivity.
Qed.

(** C5, as the code has it, run on the register value 0xFE and four
    buttons. *)
Lemma readkeys_inverted_bits_witness :
  (4 <= 32)%nat /\ (4 <= List.length [9; 9; 9; 9])%nat /\
  (forall j, (j < 4)%nat ->
     key_sample example_map (example_world key0_held) j = 0xFE) /\
  exists out w',
    readkeys example_map [9; 9; 9; 9] 4 (example_world key0_held) =
      Ok out w' /\
    List.length out = List.length [9; 9; 9; 9] /\
    (forall i, (i < 4)%nat -> nth i out 0 = bit_of (Int.not 0xFE) i) /\
    (forall i, (4 <= i)%nat -> nth i out 0 = nth i [9; 9; 9; 9] 0) /\
    firstn 4 out = key_bits (Int.not 0xFE) 4 /\
    (0xFE = 0xFE -> 4%nat = 4%nat -> firstn 4 out = [1; 0; 0; 0]).
Proof.
  split; [lia|]. split; [simpl; lia|].
  split; [intros j _; reflexivity|].
  apply (readkeys_inverted_bits example_map [9; 9; 9; 9] 4
           (example_world key0_held) 0xFE);
    [lia | simpl; lia | intros j _; reflexivity].
Defined.

(** C5, as the specification has it, fails for sizes above the width of
    [int]: with [n] = 33 and an array of 33 cells, the iteration of index
    32 shifts an [int] by 32 places, which has no defined behaviour, so
    the call stores no bit for that index, whatever the register holds. *)
Lemma readkeys_size_33_counterexample :
  readkeys example_map (repeat 0 33) 33 (example_world key0_held) =
    Undefined /\
  ~ exists out w',
      readkeys example_map (repeat 0 33) 33 (example_world key0_held) =
        Ok out w' /\
      forall i, (i < 33)%nat -> nth i out 0 = bit_of (Int.not 0xFE) i.
Proof.
  assert (E : readkeys example_map (repeat 0 33) 33 (example_world key0_held)
              = Undefined) by (vm_compute; reflexivity).
  split; [exact E|].
  intros (out & w' & H & _). rewrite E in H. discriminate H.
Qed.

(** C10. Whatever the button register holds and whatever the size [n],
    every array [readkeys] returns has 0 or 1 in each of its cells below
    [n], each value stored being masked to one bit; [readkeys] does
    return an array whenever [n] is within the width of [int] and the
    bounds of the array; and for [n] = 0 it returns the array, and leaves
    the world, exactly as it found them. *)
Theorem readkeys_stores_single_bits
    (m : fpga_map_arm_t) (pk : list Z) (n : nat) (w : world) :
  (forall out w',
     readkeys m pk n w = Ok out w' ->
     forall i, (i < n)%nat -> nth i out 0 = 0 \/ nth i out 0 = 1) /\
  ((n <= 32)%nat -> (n <= List.length pk)%nat ->
     exists out w',
       readkeys m pk n w = Ok out w' /\
       forall i, (i < n)%nat -> nth i out 0 = 0 \/ nth i out 0 = 1) /\
  readkeys m pk 0 w = Ok pk w.
Proof.
  assert (Hbits : (n <= 32)%nat -> (n <= List.length pk)%nat ->
     exists out w',
       readkeys m pk n w = Ok out w' /\
       forall i, (i < n)%nat -> nth i out 0 = 0 \/ nth i out 0 = 1).
  { intros H32 Hlen.
    destruct (readkeys_run m pk n w H32 Hlen) as (out & Hrun & _ & Hlo & _).
    exists out, (after_loads (KEY_ptr m) n w). split; [exact Hrun|].
    intros i Hi. rewrite (Hlo i Hi). apply bit_of_bool. }
  split; [|split; [exact Hbits | reflexivity]].
  intros out w' Hrun i Hi.
  destruct (proj1 (readkeys_defined_iff m pk n w)) as [-> | [H32 Hlen]];
    [eauto | lia |].
  destruct (Hbits H32 Hlen) as (out0 & w0 & Hrun0 & H0).
  rewrite Hrun in Hrun0. inversion Hrun0; subst. apply H0. exact Hi.
Qed.

(** C10 run on four buttons with button 0 held, and on no button. *)
Lemma readkeys_stores_single_bits_witness :
  readkeys example_map [9; 9; 9; 9] 4 (example_world key0_held) =
    Ok [1; 0; 0; 0] (after_loads 0x1000 4 (example_world key0_held)) /\
  (forall i, (i < 4)%nat ->
     nth i [1; 0; 0; 0] 0 = 0 \/ nth i [1; 0; 0; 0] 0 = 1) /\
  readkeys example_map [9; 9; 9; 9] 0 (example_world key0_held) =
    Ok [9; 9; 9; 9] (example_world key0_held).
Proof.
  split; [reflexivity|].
  split.
  - apply (proj1 (readkeys_stores_single_bits example_map [9; 9; 9; 9] 4
                    (example_world key0_held))
             [1; 0; 0; 0] (after_loads 0x1000 4 (example_world key0_held))).
    reflexivity.
  - apply (proj2 (proj2 (readkeys_stores_single_bits example_map [9; 9; 9; 9] 4
                           (example_world key0_held)))).
Defined.


(* ===================================================================== *)
(** ** Further properties of numbertodigit and setdigit *)

(** On a position from 0 to 5, [setdigit] is one store to the selected
    register. *)
Lemma setdigit_in_range_store (m : fpga_map_arm_t) (v p : Z) (w : world) :
  0 <= p <= 5 ->
  setdigit m v p w = store (HEX_ptr m p) (Int.not (numbertodigit v)) w.
Proof.
  intros Hp.
  destruct (position_cases p Hp) as [-> | [-> | [-> | [-> | [-> | ->]]]]];
    reflexivity.
Qed.

Lemma digit_cases (v : Z) :
  0 <= v <= 9 ->
  v = 0 \/ v = 1 \/ v = 2 \/ v = 3 \/ v = 4 \/
  v = 5 \/ v = 6 \/ v = 7 \/ v = 8 \/ v = 9.
Proof. lia. Qed.

(** Splits every disjunction among the hypotheses. *)
Ltac split_cases :=
  repeat match goal with
         | H : _ \/ _ |- _ => destruct H as [H | H]
         end.

(** X1. Two different digits never share a pattern: on the digits 0 to
    9, [numbertodigit] is injective. *)
Theorem numbertodigit_injective (a b : Z) :
  0 <= a <= 9 -> 0 <= b <= 9 ->
  numbertodigit a = numbertodigit b -> a = b.
Proof.
  intros Ha Hb H.
  pose proof (digit_cases a Ha) as Ca. pose proof (digit_cases b Hb) as Cb.
  clear Ha Hb. split_cases; subst a b; try reflexivity;
    vm_compute in H; discriminate H.
Qed.

(** X1 run on the digits 6 and 6. *)
Lemma numbertodigit_injective_witness :
  0 <= 6 <= 9 /\ numbertodigit 6 = numbertodigit 6 /\ 6 = 6.
Proof.
  split; [lia|]. split; [reflexivity|].
  apply (numbertodigit_injective 6 6); [lia | lia | reflexivity].
Defined.

(** X2. The blank pattern 0 is returned for the numbers outside 0 to 9
    and for no others: every digit lights at least one segment. *)
Theorem numbertodigit_blank_iff (v : Z) :
  numbertodigit v = 0 <-> v < 0 \/ 9 < v.
Proof.
  split; [|apply numbertodigit_outside].
  intros H.
  destruct (Z.lt_ge_cases v 0) as [Hn|Hn]; [left; exact Hn|].
  destruct (Z.lt_ge_cases 9 v) as [Hp|Hp]; [right; exact Hp|].
  exfalso.
  pose proof (digit_cases v (conj Hn Hp)) as C.
  split_cases; subst v; vm_compute in H; discriminate H.
Qed.

(** X3. A number outside 0 to 9 written to one of the six displays turns
    every segment off: the value stored is -1, all bits set, on registers
    that light a segment with a 0. *)
Theorem setdigit_blanks_unknown_number
    (m : fpga_map_arm_t) (v p : Z) (w : world) :
  v < 0 \/ 9 < v -> 0 <= p <= 5 ->
  exists w',
    setdigit m v p w = Ok tt w' /\
    stores (trace w') = stores (trace w) ++ [(HEX_ptr m p, -1)] /\
    latch w' (HEX_ptr m p) = -1.
Proof.
  intros Hv Hp. rewrite (setdigit_in_range_store m v p w Hp).
  rewrite (numbertodigit_outside v Hv). unfold store. eexists.
  split; [reflexivity|].
  split; [simpl trace; rewrite stores_app; reflexivity|].
  simpl latch. rewrite Z.eqb_refl. reflexivity.
Qed.

(** X3 run on the number 12 and display 0. *)
Lemma setdigit_blanks_unknown_number_witness :
  (12 < 0 \/ 9 < 12) /\ 0 <= 0 <= 5 /\
  exists w',
    setdigit example_map 12 0 (example_world key0_held) = Ok tt w' /\
    stores (trace w') =
      stores (trace (example_world key0_held)) ++
      [(HEX_ptr example_map 0, -1)] /\
    latch w' (HEX_ptr example_map 0) = -1.
Proof.
  split; [lia|]. split; [lia|].
  apply (setdigit_blanks_unknown_number example_map 12 0
           (example_world key0_held)); lia.
Defined.

(** X4. Whatever the number, the value [setdigit] stores in a display
    register lies between -128 and -1: only the seven low bits vary, and
    every bit from bit 7 up is written as 1. *)
Theorem setdigit_stores_high_bits_set
    (m : fpga_map_arm_t) (v p : Z) (w : world) :
  0 <= p <= 5 ->
  exists w',
    setdigit m v p w = Ok tt w' /\
    -128 <= latch w' (HEX_ptr m p) <= -1 /\
    forall k, 7 <= k -> Z.testbit (latch w' (HEX_ptr m p)) k = true.
Proof.
  intros Hp. rewrite (setdigit_in_range_store m v p w Hp).
  unfold store. eexists. split; [reflexivity|].
  simpl latch. rewrite Z.eqb_refl.
  pose proof (numbertodigit_bound v) as Hb.
  split; [unfold Int.not, Z.lnot; lia|].
  intros k Hk. unfold Int.not. rewrite Z.lnot_spec by lia.
  assert (Hz : Z.testbit (numbertodigit v) k = false).
  { apply Z.testbit_false; [lia|].
    assert (2 ^ 7 <= 2 ^ k) by (apply Z.pow_le_mono_r; lia).
    rewrite Z.div_small by lia. reflexivity. }
  rewrite Hz. reflexivity.
Qed.

(** X4 run on the digit 8, whose seven segments are all lit, on display 5. *)
Lemma setdigit_stores_high_bits_set_witness :
  0 <= 5 <= 5 /\
  exists w',
    setdigit example_map 8 5 (example_world key0_held) = Ok tt w' /\
    -128 <= latch w' (HEX_ptr example_map 5) <= -1 /\
    forall k, 7 <= k -> Z.testbit (latch w' (HEX_ptr example_map 5)) k = true.
Proof.
  split; [lia|].
  apply (setdigit_stores_high_bits_set example_map 8 5
           (example_world key0_held)); lia.
Defined.

(** X5. Two calls of [setdigit] on positions whose registers differ leave
    each register with the complement of its own number and every other
    address as it was: the displays are independent. *)
Theorem setdigit_displays_independent
    (m : fpga_map_arm_t) (v1 p1 v2 p2 : Z) (w : world) :
  0 <= p1 <= 5 -> 0 <= p2 <= 5 -> HEX_ptr m p1 <> HEX_ptr m p2 ->
  exists w1 w2,
    setdigit m v1 p1 w = Ok tt w1 /\
    setdigit m v2 p2 w1 = Ok tt w2 /\
    latch w2 (HEX_ptr m p1) = Int.not (numbertodigit v1) /\
    latch w2 (HEX_ptr m p2) = Int.not (numbertodigit v2) /\
    (forall a, a <> HEX_ptr m p1 -> a <> HEX_ptr m p2 ->
               latch w2 a = latch w a) /\
    stores (trace w2) =
      stores (trace w) ++ [(HEX_ptr m p1, Int.not (numbertodigit v1));
                           (HEX_ptr m p2, Int.not (numbertodigit v2))].
Proof.
  intros H1 H2 Hne.
  rewrite (setdigit_in_range_store m v1 p1 w H1). unfold store at 1.
  do 2 eexists. split; [reflexivity|].
  rewrite (setdigit_in_range_store m v2 p2 _ H2). unfold store at 1.
  split; [reflexivity|]. simpl latch. simpl trace.
  split.
  { destruct (Z.eqb_spec (HEX_ptr m p1) (HEX_ptr m p2)) as [E|_];
      [contradiction|]. rewrite Z.eqb_refl. reflexivity. }
  split; [rewrite Z.eqb_refl; reflexivity|].
  split.
  { intros a Ha1 Ha2.
    destruct (Z.eqb_spec a (HEX_ptr m p2)) as [E|_]; [contradiction|].
    destruct (Z.eqb_spec a (HEX_ptr m p1)) as [E|_]; [contradiction|].
    reflexivity. }
  rewrite !stores_app, <- app_assoc. reflexivity.
Qed.

(** X5 run on displays 0 and 1 of the example structure. *)
Lemma setdigit_displays_independent_witness :
  0 <= 0 <= 5 /\ 0 <= 1 <= 5 /\
  HEX_ptr example_map 0 <> HEX_ptr example_map 1 /\
  exists w1 w2,
    setdigit example_map 4 0 (example_world key0_held) = Ok tt w1 /\
    setdigit example_map 2 1 w1 = Ok tt w2 /\
    latch w2 (HEX_ptr example_map 0) = Int.not (numbertodigit 4) /\
    latch w2 (HEX_ptr example_map 1) = Int.not (numbertodigit 2) /\
    (forall a, a <> HEX_ptr example_map 0 -> a <> HEX_ptr example_map 1 ->
               latch w2 a = latch (example_world key0_held) a) /\
    stores (trace w2) =
      stores (trace (example_world key0_held)) ++
      [(HEX_ptr example_map 0, Int.not (numbertodigit 4));
       (HEX_ptr example_map 1, Int.not (numbertodigit 2))].
Proof.
  split; [lia|]. split; [lia|]. split; [discriminate|].
  apply (setdigit_displays_independent example_map 4 0 2 1
           (example_world key0_held)); [lia | lia | discriminate].
Defined.

(** X6. Two calls of [setdigit] on the same position leave the register
    with the complement of the second number alone: a write replaces the
    pattern, it does not merge with the one before. *)
Theorem setdigit_last_write_stands
    (m : fpga_map_arm_t) (v1 v2 p : Z) (w : world) :
  0 <= p <= 5 ->
  exists w1 w2,
    setdigit m v1 p w = Ok tt w1 /\
    setdigit m v2 p w1 = Ok tt w2 /\
    latch w2 (HEX_ptr m p) = Int.not (numbertodigit v2) /\
    (forall a, a <> HEX_ptr m p -> latch w2 a = latch w a).
Proof.
  intros Hp.
  rewrite (setdigit_in_range_store m v1 p w Hp). unfold store at 1.
  do 2 eexists. split; [reflexivity|].
  rewrite (setdigit_in_range_store m v2 p _ Hp). unfold store at 1.
  split; [reflexivity|]. simpl latch.
  split; [rewrite Z.eqb_refl; reflexivity|].
  intros a Ha. destruct (Z.eqb_spec a (HEX_ptr m p)) as [E|_];
    [contradiction | reflexivity].
Qed.

(** X6 run on display 3: an 8, then a 1. *)
Lemma setdigit_last_write_stands_witness :
  0 <= 3 <= 5 /\
  exists w1 w2,
    setdigit example_map 8 3 (example_world key0_held) = Ok tt w1 /\
    setdigit example_map 1 3 w1 = Ok tt w2 /\
    latch w2 (HEX_ptr example_map 3) = Int.not (numbertodigit 1) /\
    (forall a, a <> HEX_ptr example_map 3 ->
               latch w2 a = latch (example_world key0_held) a).
Proof.
  split; [lia|].
  apply (setdigit_last_write_stands example_map 8 1 3
           (example_world key0_held)); lia.
Defined.

(* ===================================================================== *)
(** ** Further properties of readkeys *)

(** What a completed call of [readkeys] is, in full. *)
Lemma readkeys_completed
    (m : fpga_map_arm_t) (pk out : list Z) (n : nat) (w w' : world) :
  readkeys m pk n w = Ok out w' ->
  w' = after_loads (KEY_ptr m) n w /\
  (n <= List.length pk \/ n = O)%nat /\
  List.length out = List.length pk /\
  (forall i, (i < n)%nat ->
             nth i out 0 = bit_of (Int.not (key_sample m w i)) i) /\
  (forall i, (n <= i)%nat -> nth i out 0 = nth i pk 0).
Proof.
  intros H.
  destruct (proj1 (readkeys_defined_iff m pk n w)) as [-> | [H32 Hlen]];
    [eauto | |].
  - change (Ok pk w = Ok out w') in H. inversion H; subst.
    split; [reflexivity|]. split; [right; reflexivity|].
    split; [reflexivity|]. split; [intros i Hi; lia | reflexivity].
  - destruct (readkeys_run m pk n w H32 Hlen) as (out0 & Hrun & Hl & Hlo & Hhi).
    rewrite Hrun in H. inversion H; subst.
    split; [reflexivity|]. split; [left; exact Hlen|]. auto.
Qed.

(** X7. A completed call of [readkeys] changes nothing but the first
    [size] cells of the array: the array keeps its length and its cells
    from index [size] on, no register is written, and the descriptors and
    mappings of the process are as before. *)
Theorem readkeys_touches_only_first_cells
    (m : fpga_map_arm_t) (pk out : list Z) (n : nat) (w w' : world) :
  readkeys m pk n w = Ok out w' ->
  List.length out = List.length pk /\
  (forall i, (n <= i)%nat -> nth i out 0 = nth i pk 0) /\
  stores (trace w') = stores (trace w) /\
  latch w' = latch w /\
  open_fds w' = open_fds w /\ mappings w' = mappings w.
Proof.
  intros H.
  destruct (readkeys_completed m pk out n w w' H) as (-> & _ & Hl & _ & Hhi).
  destruct (after_loads_frame (KEY_ptr m) n w) as (Hf & Hm & Hla).
  split; [exact Hl|]. split; [exact Hhi|].
  split; [rewrite after_loads_trace, stores_app, stores_loads;
          apply app_nil_r|].
  auto.
Qed.

(** X7 run on two buttons read into an array of four cells. *)
Lemma readkeys_touches_only_first_cells_witness :
  readkeys example_map [5; 6; 7; 8] 2 (example_world key0_held) =
    Ok [1; 0; 7; 8] (after_loads 0x1000 2 (example_world key0_held)) /\
  List.length [1; 0; 7; 8] = List.length [5; 6; 7; 8] /\
  (forall i, (2 <= i)%nat -> nth i [1; 0; 7; 8] 0 = nth i [5; 6; 7; 8] 0) /\
  stores (trace (after_loads 0x1000 2 (example_world key0_held))) =
    stores (trace (example_world key0_held)) /\
  latch (after_loads 0x1000 2 (example_world key0_held)) =
    latch (example_world key0_held) /\
  open_fds (after_loads 0x1000 2 (example_world key0_held)) =
    open_fds (example_world key0_held) /\
  mappings (after_loads 0x1000 2 (example_world key0_held)) =
    mappings (example_world key0_held).
Proof.
  split; [reflexivity|].
  apply (readkeys_touches_only_first_cells example_map [5; 6; 7; 8]
           [1; 0; 7; 8] 2 (example_world key0_held)
           (after_loads 0x1000 2 (example_world key0_held))).
  reflexivity.
Defined.


(** X9. The buttons are active low: whatever the register presents at
    each load, a completed call reports 1 at index [i] exactly when bit
    [i] of what iteration [i] loaded is 0, and 0 exactly when it is 1. *)
Theorem readkeys_reports_low_bits
    (m : fpga_map_arm_t) (pk out : list Z) (n : nat) (w w' : world) :
  readkeys m pk n w = Ok out w' ->
  forall i, (i < n)%nat ->
    (nth i out 0 = 1 <->
     Z.testbit (key_sample m w i) (Z.of_nat i) = false) /\
    (nth i out 0 = 0 <->
     Z.testbit (key_sample m w i) (Z.of_nat i) = true).
Proof.
  intros H i Hi.
  destruct (readkeys_completed m pk out n w w' H) as (_ & _ & _ & Hlo & _).
  rewrite (Hlo i Hi). unfold bit_of, Int.not.
  rewrite Z.lnot_spec by lia.
  destruct (Z.testbit (key_sample m w i) (Z.of_nat i)); simpl;
    split; split; intros E; try reflexivity; discriminate E.
Qed.

(** X9 run on four buttons with button 0 held. *)
Lemma readkeys_reports_low_bits_witness :
  readkeys example_map [0; 0; 0; 0] 4 (example_world key0_held) =
    Ok [1; 0; 0; 0] (after_loads 0x1000 4 (example_world key0_held)) /\
  forall i, (i < 4)%nat ->
    (nth i [1; 0; 0; 0] 0 = 1 <->
     Z.testbit (key_sample example_map (example_world key0_held) i)
               (Z.of_nat i) = false) /\
    (nth i [1; 0; 0; 0] 0 = 0 <->
     Z.testbit (key_sample example_map (example_world key0_held) i)
               (Z.of_nat i) = true).
Proof.
  split; [reflexivity|].
  apply (readkeys_reports_low_bits example_map [0; 0; 0; 0] [1; 0; 0; 0] 4
           (example_world key0_held)
           (after_loads 0x1000 4 (example_world key0_held))).
  reflexivity.
Defined.

(** X10. Indexes past the width of the button register read as pressed:
    when every value loaded is below 2^k and not negative, so that the
    register has no bit from [k] up, a completed call reports 1 at every
    index from [k] up to the size. *)
Theorem readkeys_absent_buttons_read_pressed
    (m : fpga_map_arm_t) (pk out : list Z) (n k : nat) (w w' : world) :
  readkeys m pk n w = Ok out w' ->
  (forall j, (j < n)%nat -> 0 <= key_sample m w j < 2 ^ Z.of_nat k) ->
  forall i, (k <= i < n)%nat -> nth i out 0 = 1.
Proof.
  intros H Hw i Hi.
  destruct (readkeys_completed m pk out n w w' H) as (_ & _ & _ & Hlo & _).
  rewrite (Hlo i ltac:(lia)). unfold bit_of, Int.not.
  rewrite Z.lnot_spec by lia.
  assert (Hz : Z.testbit (key_sample m w i) (Z.of_nat i) = false).
  { apply Z.testbit_false; [lia|].
    pose proof (Hw i ltac:(lia)) as Hr.
    assert (2 ^ Z.of_nat k <= 2 ^ Z.of_nat i)
      by (apply Z.pow_le_mono_r; lia).
    rewrite Z.div_small by lia. reflexivity. }
  rewrite Hz. reflexivity.
Qed.

(** X10 run on a register of four buttons, none of them pressed, read
    into six cells: cells 4 and 5 report a press. *)
Lemma readkeys_absent_buttons_read_pressed_witness :
  readkeys example_map [0; 0; 0; 0; 0; 0] 6 (example_world (fun _ => 0xF)) =
    Ok [0; 0; 0; 0; 1; 1]
       (after_loads 0x1000 6 (example_world (fun _ => 0xF))) /\
  (forall j, (j < 6)%nat ->
     0 <= key_sample example_map (example_world (fun _ => 0xF)) j
       < 2 ^ Z.of_nat 4) /\
  forall i, (4 <= i < 6)%nat -> nth i [0; 0; 0; 0; 1; 1] 0 = 1.
Proof.
  split; [reflexivity|].
  split; [intros j _; vm_compute; split; [discriminate | reflexivity]|].
  apply (readkeys_absent_buttons_read_pressed example_map
           [0; 0; 0; 0; 0; 0] [0; 0; 0; 0; 1; 1] 6 4
           (example_world (fun _ => 0xF))
           (after_loads 0x1000 6 (example_world (fun _ => 0xF))));
    [reflexivity|].
  intros j _; vm_compute; split; [discriminate | reflexivity].
Defined.

(** X11. What [readkeys] leaves in the first [size] cells does not depend
    on what the array held: two completed calls from the same world on
    two arrays agree on those cells and on the world they leave. *)
Theorem readkeys_overwrites_first_cells
    (m : fpga_map_arm_t) (pk1 pk2 out1 out2 : list Z) (n : nat)
    (w w1 w2 : world) :
  readkeys m pk1 n w = Ok out1 w1 ->
  readkeys m pk2 n w = Ok out2 w2 ->
  firstn n out1 = firstn n out2 /\ w1 = w2.
Proof.
  intros H1 H2.
  destruct (readkeys_completed m pk1 out1 n w w1 H1)
    as (-> & Hb1 & Hl1 & Hlo1 & _).
  destruct (readkeys_completed m pk2 out2 n w w2 H2)
    as (-> & Hb2 & Hl2 & Hlo2 & _).
  split; [|reflexivity].
  destruct n as [|n']; [reflexivity|].
  apply (nth_ext _ _ 0 0).
  - rewrite !length_firstn. lia.
  - intros i Hi. rewrite length_firstn in Hi.
    rewrite !nth_firstn.
    destruct (Nat.ltb_spec i (S n')); [|reflexivity].
    rewrite Hlo1, Hlo2 by lia. reflexivity.
Qed.

(** X11 run on two arrays of two cells. *)
Lemma readkeys_overwrites_first_cells_witness :
  readkeys example_map [5; 6] 2 (example_world key0_held) =
    Ok [1; 0] (after_loads 0x1000 2 (example_world key0_held)) /\
  readkeys example_map [7; 8] 2 (example_world key0_held) =
    Ok [1; 0] (after_loads 0x1000 2 (example_world key0_held)) /\
  firstn 2 [1; 0] = firstn 2 [1; 0] /\
  after_loads 0x1000 2 (example_world key0_held) =
    after_loads 0x1000 2 (example_world key0_held).
Proof.
  split; [reflexivity|]. split; [reflexivity|].
  apply (readkeys_overwrites_first_cells example_map [5; 6] [7; 8]
           [1; 0] [1; 0] 2 (example_world key0_held)); reflexivity.
Defined.

(* ===================================================================== *)
(** ** Further properties of fpgainit and fpgaclose *)

(** The structure a successful [fpgainit] leaves, for a window at [base]
    and the descriptor [d]. *)
Lemma fpgainit_succeeds_fields
    (hdr : header) (m m' : fpga_map_arm_t) (w w' : world) :
  fpgainit hdr m w = Ok (SUCCESS, m') w' ->
  exists p,
    dev_mem_opens w = true /\ mmap_page w = Some p /\
    m' = mkMap (new_fd w) (Z.of_N p * PAGE_SIZE)
               (Z.of_N p * PAGE_SIZE + KEY_BASE hdr)
               (Z.of_N p * PAGE_SIZE + HEX5_BASE hdr)
               (Z.of_N p * PAGE_SIZE + HEX4_BASE hdr)
               (Z.of_N p * PAGE_SIZE + HEX3_BASE hdr)
               (Z.of_N p * PAGE_SIZE + HEX2_BASE hdr)
               (Z.of_N p * PAGE_SIZE + HEX1_BASE hdr)
               (Z.of_N p * PAGE_SIZE + HEX0_BASE hdr) /\
    w' = log (EvMmap (LW_BRIDGE_SPAN hdr) (new_fd w) (LW_BRIDGE_BASE hdr)
                     (Z.of_N p * PAGE_SIZE))
             (with_mappings (Z.of_N p * PAGE_SIZE :: mappings w) (opened w)).
Proof.
  intros H.
  destruct (dev_mem_opens w) eqn:Ho; [destruct (mmap_page w) as [p|] eqn:Hm|].
  - rewrite (fpgainit_succeeds hdr m w p Ho Hm) in H.
    inversion H; subst. exists p. auto.
  - rewrite (fpgainit_map_fails hdr m w Ho Hm) in H. inversion H.
  - rewrite (fpgainit_open_fails hdr m w Ho) in H. inversion H.
Qed.

(** X12. A session leaks nothing: when /dev/mem opens, the window maps at
    an address not mapped before and then unmaps, [fpgainit] followed by
    [fpgaclose] on the structure it filled both return [SUCCESS], close
    exactly the descriptor that was opened, and leave the descriptors and
    the mappings of the process as they were, with the structure's
    descriptor at -1. *)
Theorem fpgainit_fpgaclose_restores
    (hdr : header) (m : fpga_map_arm_t) (w : world) (p : N) :
  dev_mem_opens w = true -> mmap_page w = Some p ->
  munmap_accepts w = true ->
  ~ In (Z.of_N p * PAGE_SIZE) (mappings w) ->
  exists m1 w1 m2 w2,
    fpgainit hdr m w = Ok (SUCCESS, m1) w1 /\
    fpgaclose hdr m1 w1 = Ok (SUCCESS, m2) w2 /\
    open_fds w2 = open_fds w /\ mappings w2 = mappings w /\
    closes (trace w2) = closes (trace w) ++ [fd m1] /\
    fd m2 = -1.
Proof.
  intros Ho Hm Hu Hfresh.
  do 4 eexists.
  split; [apply (fpgainit_succeeds hdr m w p Ho Hm)|].
  split; [apply fpgaclose_closes; [exact Hu | apply lowest_free_nonneg]|].
  split; [apply (remove_fresh (new_fd w)), lowest_free_fresh|].
  split; [apply (remove_fresh (Z.of_N p * PAGE_SIZE)), Hfresh|].
  split; [|reflexivity].
  simpl trace. rewrite !closes_app. simpl. rewrite !app_nil_r. reflexivity.
Qed.

(** X12 run on the example world: descriptor 3 and a window at 0x1000. *)
Lemma fpgainit_fpgaclose_restores_witness :
  dev_mem_opens (example_world key0_held) = true /\
  mmap_page (example_world key0_held) = Some 1%N /\
  munmap_accepts (example_world key0_held) = true /\
  ~ In (Z.of_N 1 * PAGE_SIZE) (mappings (example_world key0_held)) /\
  exists m1 w1 m2 w2,
    fpgainit example_header blank_map (example_world key0_held) =
      Ok (SUCCESS, m1) w1 /\
    fpgaclose example_header m1 w1 = Ok (SUCCESS, m2) w2 /\
    open_fds w2 = open_fds (example_world key0_held) /\
    mappings w2 = mappings (example_world key0_held) /\
    closes (trace w2) = closes (trace (example_world key0_held)) ++ [fd m1] /\
    fd m2 = -1.
Proof.
  split; [reflexivity|]. split; [reflexivity|]. split; [reflexivity|].
  split; [intros H; exact H|].
  apply (fpgainit_fpgaclose_restores example_header blank_map
           (example_world key0_held) 1%N);
    [reflexivity | reflexivity | reflexivity | intros H; exact H].
Defined.

(** X13. After a [fpgaclose] that closed the descriptor, no later
    [fpgaclose] on the structure closes anything, in any world and
    whether or not its unmapping succeeds: the -1 left in the structure
    keeps the descriptor number from being closed twice. *)
Theorem fpgaclose_again_closes_nothing
    (hdr : header) (m : fpga_map_arm_t) (w : world) :
  munmap_accepts w = true -> 0 <= fd m ->
  exists m1 w1,
    fpgaclose hdr m w = Ok (SUCCESS, m1) w1 /\
    forall wx, exists rc w2,
      fpgaclose hdr m1 wx = Ok (rc, m1) w2 /\
      closes (trace w2) = closes (trace wx) /\
      open_fds w2 = open_fds wx.
Proof.
  intros Hu Hfd. do 2 eexists.
  split; [apply (fpgaclose_closes hdr m w Hu Hfd)|].
  intros wx. destruct (munmap_accepts wx) eqn:Hx.
  - do 2 eexists.
    split; [apply (fpgaclose_skips_close hdr (set_fd m (-1)) wx Hx);
            simpl; lia|].
    split; [simpl trace; rewrite closes_app; apply app_nil_r | reflexivity].
  - do 2 eexists.
    split; [apply (fpgaclose_unmap_fails hdr (set_fd m (-1)) wx Hx)|].
    split; [simpl trace; rewrite !closes_app; simpl; rewrite !app_nil_r;
            reflexivity | reflexivity].
Qed.

(** X13 run on the example structure, which holds descriptor 3. *)
Lemma fpgaclose_again_closes_nothing_witness :
  munmap_accepts (example_world key0_held) = true /\
  0 <= fd example_map /\
  exists m1 w1,
    fpgaclose example_header example_map (example_world key0_held) =
      Ok (SUCCESS, m1) w1 /\
    forall wx, exists rc w2,
      fpgaclose example_header m1 wx = Ok (rc, m1) w2 /\
      closes (trace w2) = closes (trace wx) /\
      open_fds w2 = open_fds wx.
Proof.
  split; [reflexivity|]. split; [discriminate|].
  apply (fpgaclose_again_closes_nothing example_header example_map
           (example_world key0_held)); [reflexivity | discriminate].
Defined.

(** X14. A failed [fpgainit] sets no register pointer: the seven pointers
    of the structure are what they were before the call, so a structure
    that was never initialised successfully still points nowhere known. *)
Theorem fpgainit_failure_keeps_pointers
    (hdr : header) (m m' : fpga_map_arm_t) (w w' : world) (rc : Z) :
  fpgainit hdr m w = Ok (rc, m') w' ->
  rc <> SUCCESS ->
  KEY_ptr m' = KEY_ptr m /\
  HEX0_ptr m' = HEX0_ptr m /\ HEX1_ptr m' = HEX1_ptr m /\
  HEX2_ptr m' = HEX2_ptr m /\ HEX3_ptr m' = HEX3_ptr m /\
  HEX4_ptr m' = HEX4_ptr m /\ HEX5_ptr m' = HEX5_ptr m /\
  (dev_mem_opens w = false -> mapped_ptr m' = mapped_ptr m) /\
  (dev_mem_opens w = true -> mapped_ptr m' = MAP_FAILED).
Proof.
  intros H Hrc.
  destruct (dev_mem_opens w) eqn:Ho; [destruct (mmap_page w) as [p|] eqn:Hm|].
  - rewrite (fpgainit_succeeds hdr m w p Ho Hm) in H.
    inversion H; subst. contradiction.
  - rewrite (fpgainit_map_fails hdr m w Ho Hm) in H.
    inversion H; subst. repeat split; try reflexivity. discriminate.
  - rewrite (fpgainit_open_fails hdr m w Ho) in H.
    inversion H; subst. repeat split; try reflexivity. discriminate.
Qed.

(** X14 run on a kernel that does not open /dev/mem. *)
Lemma fpgainit_failure_keeps_pointers_witness :
  let w := mkWorld [0; 1; 2] [] false None true (fun _ _ => 0) O
                   (fun _ => 0) [] in
  let w' := log (EvPrintf "Couldn't open /dev/mem")
                (log (EvOpen "/dev/mem" (-1)) w) in
  fpgainit example_header example_map w = Ok (-1, set_fd example_map (-1)) w' /\
  -1 <> SUCCESS /\
  KEY_ptr (set_fd example_map (-1)) = KEY_ptr example_map.
Proof.
  intros w w'. split; [reflexivity|]. split; [discriminate|].
  apply (proj1 (fpgainit_failure_keeps_pointers example_header example_map
                  (set_fd example_map (-1)) w w' (-1)
                  eq_refl ltac:(discriminate))).
Defined.

(** X15. A successful [fpgainit] overwrites every field: the structure
    and the world it leaves are the same whatever the structure held on
    entry. *)
Theorem fpgainit_ignores_prior_contents
    (hdr : header) (ma mb m' : fpga_map_arm_t) (w w' : world) :
  fpgainit hdr ma w = Ok (SUCCESS, m') w' ->
  fpgainit hdr mb w = Ok (SUCCESS, m') w'.
Proof.
  intros H.
  destruct (fpgainit_succeeds_fields hdr ma m' w w' H)
    as (p & Ho & Hm & -> & ->).
  apply (fpgainit_succeeds hdr mb w p Ho Hm).
Qed.

(** X15 run on a blank structure and on one that was in use. *)
Lemma fpgainit_ignores_prior_contents_witness :
  fpgainit example_header blank_map (example_world key0_held) =
    Ok (SUCCESS, example_map)
       (log (EvMmap 0x5000 3 0xFF200000 0x1000)
            (with_mappings [0x1000] (opened (example_world key0_held)))) /\
  fpgainit example_header (set_fd example_map 77) (example_world key0_held) =
    Ok (SUCCESS, example_map)
       (log (EvMmap 0x5000 3 0xFF200000 0x1000)
            (with_mappings [0x1000] (opened (example_world key0_held)))).
Proof.
  split; [reflexivity|].
  apply (fpgainit_ignores_prior_contents example_header blank_map
           (set_fd example_map 77)).
  reflexivity.
Defined.

(** X16. A successful [fpgainit] does two things and no more: it opens
    /dev/mem, and it maps [LW_BRIDGE_SPAN] bytes at offset
    [LW_BRIDGE_BASE] of the descriptor that [open] returned.  It prints nothing,
    closes nothing, and neither reads nor writes a register. *)
Theorem fpgainit_success_trace
    (hdr : header) (m m' : fpga_map_arm_t) (w w' : world) :
  fpgainit hdr m w = Ok (SUCCESS, m') w' ->
  trace w' =
    trace w ++ [EvOpen "/dev/mem" (fd m');
                EvMmap (LW_BRIDGE_SPAN hdr) (fd m') (LW_BRIDGE_BASE hdr)
                       (mapped_ptr m')] /\
  latch w' = latch w /\ clock w' = clock w /\
  open_fds w' = fd m' :: open_fds w /\
  mappings w' = mapped_ptr m' :: mappings w.
Proof.
  intros H.
  destruct (fpgainit_succeeds_fields hdr m m' w w' H)
    as (p & Ho & Hm & -> & ->).
  split; [simpl; rewrite <- app_assoc; reflexivity|].
  repeat split.
Qed.

(** X16 run on the example world. *)
Lemma fpgainit_success_trace_witness :
  let w' := log (EvMmap 0x5000 3 0xFF200000 0x1000)
                (with_mappings [0x1000] (opened (example_world key0_held))) in
  fpgainit example_header blank_map (example_world key0_held) =
    Ok (SUCCESS, example_map) w' /\
  trace w' = [EvOpen "/dev/mem" 3; EvMmap 0x5000 3 0xFF200000 0x1000] /\
  open_fds w' = [3; 0; 1; 2].
Proof.
  intros w'. split; [reflexivity|].
  destruct (fpgainit_success_trace example_header blank_map example_map
              (example_world key0_held) w' eq_refl) as (Ht & _ & _ & Hf & _).
  split; [exact Ht | exact Hf].
Defined.

(** X17. [fpgainit] never closes a descriptor that was open before the
    call: every such descriptor is still open afterwards, and the only
    descriptor it may close is the one it opened itself.  So calling it
    again on a structure that holds an open descriptor leaves that
    descriptor open and, on success, no longer recorded in the structure. *)
Theorem fpgainit_keeps_older_descriptors
    (hdr : header) (m m' : fpga_map_arm_t) (w w' : world) (rc : Z) :
  fpgainit hdr m w = Ok (rc, m') w' ->
  (forall d, In d (open_fds w) -> In d (open_fds w')) /\
  (exists cl,
     closes (trace w') = closes (trace w) ++ cl /\
     forall d, In d cl -> ~ In d (open_fds w)) /\
  (rc = SUCCESS -> In (fd m) (open_fds w) ->
     fd m' <> fd m /\ In (fd m) (open_fds w')).
Proof.
  intros H.
  destruct (dev_mem_opens w) eqn:Ho; [destruct (mmap_page w) as [p|] eqn:Hm|].
  - rewrite (fpgainit_succeeds hdr m w p Ho Hm) in H.
    inversion H; subst; clear H.
    split; [intros d Hd; simpl; right; exact Hd|].
    split.
    + exists []. split; [|intros d []].
      simpl trace. rewrite !closes_app. simpl. rewrite !app_nil_r.
      reflexivity.
    + intros _ Hin. cbn [fd]. split; [|simpl; right; exact Hin].
      intros E. apply (lowest_free_fresh (open_fds w)).
      unfold new_fd in E. rewrite E. exact Hin.
  - rewrite (fpgainit_map_fails hdr m w Ho Hm) in H.
    inversion H; subst; clear H.
    split; [intros d Hd; exact Hd|].
    split; [|discriminate].
    exists [new_fd w]. split.
    + simpl trace. rewrite !closes_app. simpl. rewrite !app_nil_r.
      reflexivity.
    + intros d [<- | []]. apply lowest_free_fresh.
  - rewrite (fpgainit_open_fails hdr m w Ho) in H.
    inversion H; subst; clear H.
    split; [intros d Hd; exact Hd|].
    split; [|discriminate].
    exists []. split; [|intros d []].
    simpl trace. rewrite !closes_app. simpl. rewrite !app_nil_r.
    reflexivity.
Qed.

(** X17 run on a second [fpgainit] of a structure that holds descriptor
    3, still open: descriptor 4 replaces it and 3 stays open. *)
Lemma fpgainit_keeps_older_descriptors_witness :
  let w := mkWorld [3; 0; 1; 2] [0x1000] true (Some 2%N) true
                   (fun _ _ => 0) O (fun _ => 0) [] in
  exists m' w',
    fpgainit example_header example_map w = Ok (SUCCESS, m') w' /\
    fd m' = 4 /\ In 3 (open_fds w') /\ closes (trace w') = [].
Proof.
  intros w.
  exists (mkMap 4 0x2000 0x2000 0x2010 0x2020 0x2030 0x2040 0x2050 0x2060).
  exists (log (EvMmap 0x5000 4 0xFF200000 0x2000)
              (with_mappings [0x2000; 0x1000] (opened w))).
  split; [reflexivity|]. split; [reflexivity|].
  destruct (fpgainit_keeps_older_descriptors example_header example_map
              _ w _ SUCCESS eq_refl) as (Hkeep & (cl & Hcl & _) & Hre).
  split; [apply (Hkeep 3); simpl; auto|].
  reflexivity.
Defined.

(** X18. A successful [fpgaclose] resets nothing but the descriptor: the
    mapping base and the seven register pointers keep the addresses they
    had, which are no longer those of a live mapping. *)
Theorem fpgaclose_leaves_pointers
    (hdr : header) (m : fpga_map_arm_t) (w : world) :
  munmap_accepts w = true ->
  exists m' w',
    fpgaclose hdr m w = Ok (SUCCESS, m') w' /\
    mapped_ptr m' = mapped_ptr m /\ KEY_ptr m' = KEY_ptr m /\
    HEX0_ptr m' = HEX0_ptr m /\ HEX1_ptr m' = HEX1_ptr m /\
    HEX2_ptr m' = HEX2_ptr m /\ HEX3_ptr m' = HEX3_ptr m /\
    HEX4_ptr m' = HEX4_ptr m /\ HEX5_ptr m' = HEX5_ptr m /\
    ~ In (mapped_ptr m') (mappings w').
Proof.
  intros Hu. destruct (Z.le_gt_cases 0 (fd m)) as [Hfd|Hfd].
  - do 2 eexists. split; [apply (fpgaclose_closes hdr m w Hu Hfd)|].
    repeat (split; [reflexivity|]). simpl. apply remove_In.
  - do 2 eexists. split; [apply (fpgaclose_skips_close hdr m w Hu Hfd)|].
    repeat (split; [reflexivity|]). simpl. apply remove_In.
Qed.

(** X18 run on the example structure with its window mapped. *)
Lemma fpgaclose_leaves_pointers_witness :
  let w := mkWorld [3; 0; 1; 2] [0x1000] true (Some 2%N) true
                   (fun _ _ => 0) O (fun _ => 0) [] in
  munmap_accepts w = true /\
  exists m' w',
    fpgaclose example_header example_map w = Ok (SUCCESS, m') w' /\
    mapped_ptr m' = mapped_ptr example_map /\
    KEY_ptr m' = KEY_ptr example_map /\
    HEX0_ptr m' = HEX0_ptr example_map /\
    HEX1_ptr m' = HEX1_ptr example_map /\
    HEX2_ptr m' = HEX2_ptr example_map /\
    HEX3_ptr m' = HEX3_ptr example_map /\
    HEX4_ptr m' = HEX4_ptr example_map /\
    HEX5_ptr m' = HEX5_ptr example_map /\
    ~ In (mapped_ptr m') (mappings w').
Proof.
  intros w. split; [reflexivity|].
  apply (fpgaclose_leaves_pointers example_header example_map w).
  reflexivity.
Defined.

(* ===================================================================== *)
(** ** The accessor end to end *)




(** X20. On a structure that [fpgainit] filled, [readkeys] within the
    width of [int] and the bounds of the array completes, and everything
    it does is to load, once per index, the word at the address of the
    mapping plus the offset of the button register. *)
Theorem fpgainit_readkeys_address
    (hdr : header) (m m1 : fpga_map_arm_t) (w w1 : world)
    (pk : list Z) (n : nat) :
  fpgainit hdr m w = Ok (SUCCESS, m1) w1 ->
  (n <= 32)%nat -> (n <= List.length pk)%nat ->
  exists out w2,
    readkeys m1 pk n w1 = Ok out w2 /\
    trace w2 =
      trace w1 ++
      map (fun j => EvLoad (mapped_ptr m1 + KEY_BASE hdr) (key_sample m1 w1 j))
          (seq 0 n) /\
    In (mapped_ptr m1) (mappings w2).
Proof.
  intros H H32 Hlen.
  destruct (readkeys_run m1 pk n w1 H32 Hlen) as (out & Hrun & _).
  exists out, (after_loads (KEY_ptr m1) n w1). split; [exact Hrun|].
  destruct (fpgainit_succeeds_fields hdr m m1 w w1 H)
    as (p & Ho & Hm & Em & Ew).
  split.
  - rewrite after_loads_trace. subst m1. reflexivity.
  - destruct (after_loads_frame (KEY_ptr m1) n w1) as (_ & -> & _).
    subst m1 w1. simpl. left. reflexivity.
Qed.

(** X20 run on the example world and four buttons. *)
Lemma fpgainit_readkeys_address_witness :
  let w1 := log (EvMmap 0x5000 3 0xFF200000 0x1000)
                (with_mappings [0x1000] (opened (example_world key0_held))) in
  fpgainit example_header blank_map (example_world key0_held) =
    Ok (SUCCESS, example_map) w1 /\
  (4 <= 32)%nat /\ (4 <= List.length [0; 0; 0; 0])%nat /\
  exists out w2,
    readkeys example_map [0; 0; 0; 0] 4 w1 = Ok out w2 /\
    trace w2 =
      trace w1 ++
      map (fun j => EvLoad (mapped_ptr example_map + KEY_BASE example_header)
                           (key_sample example_map w1 j))
          (seq 0 4) /\
    In (mapped_ptr example_map) (mappings w2).
Proof.
  intros w1. split; [reflexivity|]. split; [lia|]. split; [simpl; lia|].
  apply (fpgainit_readkeys_address example_header blank_map example_map
           (example_world key0_held) w1 [0; 0; 0; 0] 4);
    [reflexivity | lia | simpl; lia].
Defined.
